(** * CV Pulse: the analysis pipeline of [src/src/App.jsx]

    A shallow embedding of the resume-analysis core of the application:
    the real-time statistics engine [calculateStats], the two result
    generators [realGeminiAnalysis] and [mockAIAnalysis], and the
    orchestrating event handler [handleAnalyze].

    Modelling conventions.

    - A JavaScript string is a [string]: one [ascii] per UTF-16 code
      unit, so the embedding covers texts whose code units are below
      256 (Latin-1).  The character classes and the case mapping below
      are the restrictions of the ECMAScript ones to that range.
    - Array lengths and the counters incremented by [++] are [nat];
      they are exact in JavaScript below 2^53.
    - Every quantity produced by [/] or [*] is a binary64 [float], with
      the operations of the kernel's primitive floats, which round as
      JavaScript's do.
    - Effects of the handler (alerts, console output, React state
      setters, calls to the generators) are threaded through an explicit
      state with an event trace. *)

From Stdlib Require Import ZArith Floats Uint63 String Ascii List Bool Arith Lia.
From Stdlib Require QArith.
Import ListNotations.

Set Warnings "-register-all".

Local Open Scope string_scope.
Local Open Scope list_scope.
Local Open Scope nat_scope.

(** ** Built-ins of the JavaScript runtime used by the source *)

Module JS.

Definition code (c : ascii) : nat := nat_of_ascii c.

(** [\s] of regular expressions and the characters removed by
    [String.prototype.trim]: TAB, LF, VT, FF, CR, SPACE and NBSP. *)
Definition is_space (c : ascii) : bool :=
  let n := code c in
  ((9 <=? n) && (n <=? 13)) || (n =? 32) || (n =? 160).

(** [\d] is [0-9]. *)
Definition is_digit (c : ascii) : bool :=
  let n := code c in (48 <=? n) && (n <=? 57).

(** One code unit of [String.prototype.toLowerCase]: A-Z and the
    Latin-1 capitals (all of U+00C0..U+00DE but the multiplication
    sign) move 32 places up. *)
Definition lower_char (c : ascii) : ascii :=
  let n := code c in
  if ((65 <=? n) && (n <=? 90))
     || ((192 <=? n) && (n <=? 222) && negb (n =? 215))
  then ascii_of_nat (n + 32) else c.

Fixpoint toLowerCase (s : string) : string :=
  match s with
  | EmptyString => EmptyString
  | String c r => String (lower_char c) (toLowerCase r)
  end.

(** [s.split(/[C]+/)] for a character class [C]: the separator is a
    maximal run of characters of the class.  A run cannot be empty, so
    every match advances and the pieces are the (possibly empty)
    substrings between runs, with the piece before a leading run and
    the piece after a trailing run included. *)
Fixpoint split_go (sep : ascii -> bool) (s cur : string) (in_run : bool)
  : list string :=
  match s with
  | EmptyString => [cur]
  | String c r =>
      if sep c
      then if in_run then split_go sep r "" true
           else cur :: split_go sep r "" true
      else split_go sep r (cur ++ String c "")%string false
  end.

Definition split (sep : ascii -> bool) (s : string) : list string :=
  split_go sep s "" false.

(** [Array.prototype.includes] on an array of strings. *)
Definition includes (l : list string) (x : string) : bool :=
  existsb (String.eqb x) l.

(** [String.prototype.trim]. *)
Fixpoint trimStart (s : string) : string :=
  match s with
  | EmptyString => EmptyString
  | String c r => if is_space c then trimStart r else s
  end.

Fixpoint all_space (s : string) : bool :=
  match s with
  | EmptyString => true
  | String c r => is_space c && all_space r
  end.

Fixpoint trimEnd (s : string) : string :=
  match s with
  | EmptyString => EmptyString
  | String c r => if all_space s then EmptyString else String c (trimEnd r)
  end.

Definition trim (s : string) : string := trimEnd (trimStart s).

(** [n || d] on a length: [0] is falsy. *)
Definition or_default (n d : nat) : nat :=
  match n with O => d | _ => n end.

(** The Number that holds a length or a counter.  The conversion is the
    exact one for every count below 2^53, which bounds the length of a
    JavaScript string; the properties below are stated under that
    bound. *)
Definition num (n : nat) : float := PrimFloat.of_uint63 (Uint63.of_Z (Z.of_nat n)).

(** [Math.round]: a Number that is not finite or is already integral
    is returned as it is; otherwise the result is [floor (x + 1/2)]
    computed exactly, with the sign of [x] kept on a zero result.  A
    finite binary64 with a non-negative exponent is integral; one with
    a negative exponent is below 2^52 in magnitude, so the rounded
    integer is converted exactly. *)
Definition Math_round (x : float) : float :=
  match Prim2SF x with
  | S754_finite s m e =>
      if (0 <=? e)%Z then x
      else
        let k := ((2 * cond_Zopp s (Zpos m) + 2 ^ (- e)) / 2 ^ (1 - e))%Z in
        if (k =? 0)%Z then (if s then PrimFloat.neg_zero else PrimFloat.zero)
        else if (k <? 0)%Z then (- PrimFloat.of_uint63 (Uint63.of_Z (- k)))%float
        else PrimFloat.of_uint63 (Uint63.of_Z k)
  | _ => x
  end.

(** [Math.min] of two Numbers: NaN if either is NaN, and [-0] is
    below [+0]. *)
Definition Math_min (a b : float) : float :=
  if PrimFloat.is_nan a || PrimFloat.is_nan b then PrimFloat.nan
  else if (a <? b)%float then a
  else if (b <? a)%float then b
  else if PrimFloat.get_sign a then a else b.

(** [a > b] on Numbers. *)
Definition gt (a b : float) : bool := (b <? a)%float.

End JS.

(** ** The real-time statistics engine *)

(** The class [[.!?]] of the sentence separator. *)
Definition is_terminal (c : ascii) : bool :=
  let n := JS.code c in (n =? 46) || (n =? 33) || (n =? 63).

(** Number of leading [\d] characters. *)
Fixpoint digits_len (s : string) : nat :=
  match s with
  | String c r => if JS.is_digit c then S (digits_len r) else 0
  | EmptyString => 0
  end.

(** Does the character at index [i] satisfy [p]? *)
Definition char_at_is (p : ascii -> bool) (i : nat) (s : string) : bool :=
  match String.get i s with
  | Some c => p c
  | None => false
  end.

Definition is_char (n : nat) (c : ascii) : bool := JS.code c =? n.

(** [k] and [m] under the [i] flag. *)
Definition is_k (c : ascii) : bool := is_char 107 c || is_char 75 c.
Definition is_m (c : ascii) : bool := is_char 109 c || is_char 77 c.

(** Length of the match of
    [/(\d+%|\$\d+|\d+k|\d+m|\d+\+)/i] anchored at the start of [s], the
    alternatives tried in order.  [\d+] is greedy; giving digits back
    never helps, since the character after a shorter run is a digit and
    no alternative continues with one, so only the maximal run is
    tried. *)
Definition quantifier_at (s : string) : option nat :=
  let d := digits_len s in
  if (0 <? d) && char_at_is (is_char 37) d s then Some (S d)
  else
    match s with
    | String c r =>
        if is_char 36 c && (0 <? digits_len r) then Some (S (digits_len r))
        else if (0 <? d) && char_at_is is_k d s then Some (S d)
        else if (0 <? d) && char_at_is is_m d s then Some (S d)
        else if (0 <? d) && char_at_is (is_char 43) d s then Some (S d)
        else None
    | EmptyString => None
    end.

(** The successive matches of the global regular expression: after a
    match the search resumes at its end ([skip] counts the characters of
    the current match still to pass), after a failure one character
    further. *)
Fixpoint match_from (s : string) (skip : nat) : list string :=
  match s with
  | EmptyString => []
  | String _ r =>
      match skip with
      | S k => match_from r k
      | O =>
          match quantifier_at s with
          | Some n => substring 0 n s :: match_from r (n - 1)
          | None => match_from r 0
          end
      end
  end.

(** [text.match(/.../gi)]: [null] when nothing matches. *)
Definition match_quantifiers (text : string) : option (list string) :=
  match match_from text 0 with
  | [] => None
  | l => Some l
  end.

Definition strongVerbs : list string :=
  ["spearheaded"; "orchestrated"; "developed"; "engineered"; "implemented";
   "generated"; "increased"; "reduced"; "launched"].

Definition weakVerbs : list string :=
  ["helped"; "worked"; "responsible"; "assisted"; "participated"].

Definition words_of (text : string) : list string :=
  filter (fun w => 0 <? String.length w) (JS.split JS.is_space text).

Definition sentences_of (text : string) : list string :=
  filter (fun s => 0 <? String.length s) (JS.split is_terminal text).

Definition quantifiers_of (text : string) : list string :=
  match match_quantifiers text with
  | Some l => l
  | None => []
  end.

(** The body of the [forEach] callback, on the pair of counters. *)
Definition count_verb (acc : nat * nat) (w : string) : nat * nat :=
  let '(strongCount, weakCount) := acc in
  let strongCount :=
    if JS.includes strongVerbs (JS.toLowerCase w) then S strongCount
    else strongCount in
  let weakCount :=
    if JS.includes weakVerbs (JS.toLowerCase w) then S weakCount
    else weakCount in
  (strongCount, weakCount).

Definition verb_counts (words : list string) : nat * nat :=
  fold_left count_verb words (0, 0).

Definition impact_of (quantifiers sentences : nat) : float :=
  JS.Math_min 100%float
    (JS.Math_round
       (JS.num quantifiers / JS.num (JS.or_default sentences 1) * 100 * 1.5)%float).

Definition verb_score_of (strongCount weakCount : nat) : float :=
  JS.Math_min 100%float
    (JS.Math_round
       (JS.num strongCount / JS.num (strongCount + weakCount + 1) * 100)%float).

Definition avgSentenceLength_of (words sentences : nat) : float :=
  (JS.num words / JS.num (JS.or_default sentences 1))%float.

Definition brevity_of (avgSentenceLength : float) : float :=
  if JS.gt avgSentenceLength 25%float then 40%float
  else if JS.gt avgSentenceLength 15%float then 100%float
  else 80%float.

Record Stats := {
  wordCount : nat;
  impactScore : float;
  verbScore : float;
  brevityScore : float
}.

Definition avgSentenceLength (text : string) : float :=
  avgSentenceLength_of (List.length (words_of text))
                       (List.length (sentences_of text)).

Definition calculateStats (text : string) : option Stats :=
  match text with
  | EmptyString => None
  | _ =>
      let words := words_of text in
      let sentences := sentences_of text in
      let quantifiers := quantifiers_of text in
      let impactScore :=
        impact_of (List.length quantifiers) (List.length sentences) in
      let '(strongCount, weakCount) := verb_counts words in
      let verbScore := verb_score_of strongCount weakCount in
      let avgSentenceLength :=
        avgSentenceLength_of (List.length words) (List.length sentences) in
      let brevityScore := brevity_of avgSentenceLength in
      Some {| wordCount := List.length words;
              impactScore := impactScore;
              verbScore := verbScore;
              brevityScore := brevityScore |}
  end.

(** ** Values, the runtime and the session state *)

(** The JavaScript values the generators produce: what [JSON.parse]
    returns, and [undefined]. *)
Inductive value :=
| VUndefined
| VNull
| VBool (b : bool)
| VNumber (x : float)
| VString (s : string)
| VArray (items : list value)
| VObject (fields : list (string * value)).

(** How an awaited promise settles. *)
Inductive settled :=
| Resolved (v : value)
| Rejected.

(** What the process is started with and what lies outside the
    repository: the credential read once from the environment
    ([import.meta.env.VITE_GEMINI_API_KEY || ""]), the remote model
    ([None]: the SDK call throws; [Some t]: [response.text()] is [t]) and
    the built-in [JSON.parse] ([None]: it throws). *)
Record Runtime := {
  API_KEY : string;
  generateContent : string -> option string;
  JSON_parse : string -> option value
}.

Inductive event :=
| Alert (msg : string)
| ConsoleLog (msg : string)
| ConsoleError
| SetTimeout (ms : nat)
| RequestSent (prompt : string)
| Call_calculateStats (text : string)
| Call_realGeminiAnalysis (text jobDesc : string)
| Call_mockAIAnalysis (text jobDesc : string).

(** The React state of [App] that the handler reads and writes. *)
Record AppState := {
  step : nat;
  resumeText : string;
  jobDesc : string;
  stats : option Stats;
  aiResult : value
}.

Definition initialState : AppState :=
  {| step := 1; resumeText := ""; jobDesc := ""; stats := None;
     aiResult := VNull |}.

(** Truthiness of a string. *)
Definition truthy (s : string) : bool :=
  match s with EmptyString => false | _ => true end.

(** ** The remote analysis client *)

Definition nl : string := String (ascii_of_nat 10) "".

Definition userPrompt (text jobDesc : string) : string :=
  (nl ++ "      RESUME TEXT: " ++ nl
      ++ "      " ++ text ++ nl
      ++ nl
      ++ "      JOB DESCRIPTION: " ++ nl
      ++ "      "
      ++ (if truthy jobDesc then jobDesc
          else "General Software Engineering role") ++ nl
      ++ "    ")%string.

Definition fence_open : string := "```json".
Definition fence : string := "```".

(** Does [s] begin with the literal [lit]? *)
Fixpoint starts_with (lit s : string) : bool :=
  match lit with
  | EmptyString => true
  | String a l =>
      match s with
      | EmptyString => false
      | String b r => Ascii.eqb a b && starts_with l r
      end
  end.

(** Length of the match of [/```json|```/] at the start of [s]. *)
Definition fence_at (s : string) : option nat :=
  if starts_with fence_open s then Some 7
  else if starts_with fence s then Some 3
  else None.

(** [s.replace(/```json|```/g, '')]: matched stretches are dropped,
    every other character is kept. *)
Fixpoint replace_from (s : string) (skip : nat) : string :=
  match s with
  | EmptyString => EmptyString
  | String c r =>
      match skip with
      | S k => replace_from r k
      | O =>
          match fence_at s with
          | Some n => replace_from r (n - 1)
          | None => String c (replace_from r 0)
          end
      end
  end.

Definition strip_fences (s : string) : string := replace_from s 0.

Definition jsonString (textResponse : string) : string :=
  JS.trim (strip_fences textResponse).

(** The body of the [try] block after the response has arrived. *)
Definition clean_and_parse (rt : Runtime) (textResponse : string)
  : option value :=
  JSON_parse rt (jsonString textResponse).

Definition api_error_message : string :=
  "API Error: Check console for details. Falling back to mock data.".

(** [realGeminiAnalysis]: whatever is thrown inside [try] is caught, the
    [catch] block logs and alerts and returns nothing, so the promise
    resolves with [undefined]. *)
Definition realGeminiAnalysis (rt : Runtime) (text jobDesc : string)
  : list event * settled :=
  let prompt := userPrompt text jobDesc in
  let sent := [RequestSent prompt] in
  let caught := [ConsoleError; Alert api_error_message] in
  match generateContent rt prompt with
  | None => (sent ++ caught, Resolved VUndefined)
  | Some textResponse =>
      match clean_and_parse rt textResponse with
      | Some v => (sent, Resolved v)
      | None => (sent ++ caught, Resolved VUndefined)
      end
  end.

(** ** The mock generator *)

Definition mock_summary : string :=
  "This candidate shows strong technical potential but lacks quantitative evidence. The structure is ATS-friendly, but the language is too passive. (MOCK DATA - Add API Key to see real results)".

Definition bullet (original improved : string) : value :=
  VObject [("original", VString original); ("improved", VString improved)].

Definition mock_bulletPoints : list value :=
  [bullet "Worked on a React project for a client."
          "Architected a scalable React application for a Fortune 500 client, reducing page load time by 40%.";
   bullet "Responsible for managing a team."
          "Spearheaded a cross-functional team of 10 engineers, delivering the Q4 roadmap 2 weeks ahead of schedule."].

Definition keywords_with_job : list value :=
  [VString "Kubernetes"; VString "CI/CD"; VString "System Design"].

Definition keywords_without_job : list value :=
  [VString "Leadership"; VString "Optimization"].

Definition mock_softSkills : list value :=
  [VString "Communication"; VString "Problem Solving"].

Definition mock_value (jobDesc : string) : value :=
  VObject
    [("summary", VString mock_summary);
     ("bulletPoints", VArray mock_bulletPoints);
     ("missingKeywords",
      VArray (if truthy jobDesc then keywords_with_job
              else keywords_without_job));
     ("softSkills", VArray mock_softSkills);
     ("score", VNumber 72%float)].

(** [mockAIAnalysis]: a promise whose executor arms a 1500 ms timer that
    resolves it. *)
Definition mockAIAnalysis (text jobDesc : string) : list event * settled :=
  ([SetTimeout 1500], Resolved (mock_value jobDesc)).

(** ** The orchestrating handler *)

Definition short_text_message : string :=
  "Please enter a longer resume text.".

Definition setStep (n : nat) (st : AppState) : AppState :=
  {| step := n; resumeText := resumeText st; jobDesc := jobDesc st;
     stats := stats st; aiResult := aiResult st |}.

Definition setStats (s : option Stats) (st : AppState) : AppState :=
  {| step := step st; resumeText := resumeText st; jobDesc := jobDesc st;
     stats := s; aiResult := aiResult st |}.

Definition setAiResult (v : value) (st : AppState) : AppState :=
  {| step := step st; resumeText := resumeText st; jobDesc := jobDesc st;
     stats := stats st; aiResult := v |}.

(** [handleAnalyze]: the state the handler leaves and the events it
    causes, in order.  An awaited promise that rejected would end the
    handler at the [await]. *)
Definition handleAnalyze (rt : Runtime) (st : AppState)
  : AppState * list event :=
  if String.length (resumeText st) <? 50
  then (st, [Alert short_text_message])
  else
    let st := setStep 2 st in
    let computedStats := calculateStats (resumeText st) in
    let st := setStats computedStats st in
    let ev := [Call_calculateStats (resumeText st)] in
    let '(ev', aiData) :=
      if truthy (API_KEY rt)
      then
        let '(e, r) := realGeminiAnalysis rt (resumeText st) (jobDesc st) in
        (Call_realGeminiAnalysis (resumeText st) (jobDesc st) :: e, r)
      else
        let '(e, r) := mockAIAnalysis (resumeText st) (jobDesc st) in
        (ConsoleLog "No API Key found. Using Mock Service."
           :: Call_mockAIAnalysis (resumeText st) (jobDesc st) :: e, r) in
    match aiData with
    | Resolved v => (setStep 3 (setAiResult v st), ev ++ ev')
    | Rejected => (st, ev ++ ev')
    end.

(** A field of an object value (the first with that key). *)
Fixpoint assoc (k : string) (l : list (string * value)) : option value :=
  match l with
  | [] => None
  | (k', v) :: r => if String.eqb k k' then Some v else assoc k r
  end.

Definition field (k : string) (v : value) : option value :=
  match v with
  | VObject fs => assoc k fs
  | _ => None
  end.

(** ** Observations on a run of the handler *)

Definition is_remote_event (e : event) : bool :=
  match e with
  | Call_realGeminiAnalysis _ _ | RequestSent _ => true
  | _ => false
  end.

Definition is_mock_event (e : event) : bool :=
  match e with
  | Call_mockAIAnalysis _ _ => true
  | _ => false
  end.

Definition is_stats_event (e : event) : bool :=
  match e with
  | Call_calculateStats _ => true
  | _ => false
  end.

Definition calls_remote (ev : list event) : bool := existsb is_remote_event ev.
Definition calls_mock (ev : list event) : bool := existsb is_mock_event ev.
Definition calls_stats (ev : list event) : bool := existsb is_stats_event ev.

(** No analysis is held: the state variable is [null] or [undefined]. *)
Definition absent (v : value) : bool :=
  match v with
  | VUndefined | VNull => true
  | _ => false
  end.

(** A process started without a credential, with nothing reachable. *)
Definition offline : Runtime :=
  {| API_KEY := ""; generateContent := fun _ => None;
     JSON_parse := fun _ => None |}.

Definition sample_resume : string :=
  "Increased revenue by 20% and reduced costs by 15%. Helped the team launch.".

Definition sample_state : AppState :=
  {| step := 1; resumeText := sample_resume; jobDesc := "";
     stats := None; aiResult := VNull |}.

(** A process started with a credential whose remote model answers every
    prompt with the text [{}].  Its parser stands in for [JSON.parse] on the
    one text it is given here: [{}] parses to the empty object. *)
Definition parse_empty_object (s : string) : option value :=
  if String.eqb s "{}" then Some (VObject []) else None.

Definition answers_empty_object : Runtime :=
  {| API_KEY := "secret"; generateContent := fun _ => Some "{}";
     JSON_parse := parse_empty_object |}.

(** A process started with a credential whose remote model cannot be
    reached. *)
Definition unreachable : Runtime :=
  {| API_KEY := "secret"; generateContent := fun _ => None;
     JSON_parse := parse_empty_object |}.

(** The spec's classification of a remote call, after its words: the
    call fails on a network or API error, on a response that does not parse
    as JSON after fence stripping, and on a parsed value that lacks a
    required field of the analysis result. *)
Definition required_fields : list string :=
  ["score"; "summary"; "bulletPoints"; "missingKeywords"; "softSkills"].

Definition has_field (v : value) (k : string) : bool :=
  match field k v with
  | Some _ => true
  | None => false
  end.

Definition has_required_fields (v : value) : bool :=
  forallb (has_field v) required_fields.

Inductive failure_kind := NetworkFailure | ParseFailure | ShapeFailure.

Definition remote_failure (rt : Runtime) (text jobDesc : string)
  : option failure_kind :=
  match generateContent rt (userPrompt text jobDesc) with
  | None => Some NetworkFailure
  | Some textResponse =>
      match clean_and_parse rt textResponse with
      | None => Some ParseFailure
      | Some v => if has_required_fields v then None else Some ShapeFailure
      end
  end.

(** The call does not give its caller a value to use. *)
Definition no_usable_value (r : settled) : bool :=
  match r with
  | Resolved v => absent v
  | Rejected => true
  end.

(** Number of characters in a list of pieces. *)
Definition total_length (l : list string) : nat :=
  fold_right (fun w n => String.length w + n) 0 l.

Definition nonempty (w : string) : bool := 0 <? String.length w.

(** A score is the Number of an integer between 0 and 100. *)
Definition is_percentage (x : float) : Prop :=
  exists k : nat, k <= 100 /\ x = JS.num k.

(** Every character of the string satisfies [p]. *)
Fixpoint all_chars (p : ascii -> bool) (s : string) : bool :=
  match s with
  | EmptyString => true
  | String c r => p c && all_chars p r
  end.

(** [n] words of one letter, without terminal punctuation. *)
Fixpoint words_text (n : nat) : string :=
  match n with
  | O => EmptyString
  | S k => String "w" (String " " (words_text k))
  end.

(** The lowercased token is one of the listed strong (weak) verbs. *)
Definition is_strong (tok : string) : Prop :=
  In (JS.toLowerCase tok) strongVerbs.

Definition is_weak (tok : string) : Prop :=
  In (JS.toLowerCase tok) weakVerbs.

Definition strongb (tok : string) : bool :=
  JS.includes strongVerbs (JS.toLowerCase tok).

Definition weakb (tok : string) : bool :=
  JS.includes weakVerbs (JS.toLowerCase tok).

(** The number of words whose lowercased form is, as a whole, one of the
    listed verbs.  This count is written from the membership relation
    [In], not from the loop of the source; the two are compared below. *)
Definition whole_token_count (verbs words : list string) : nat :=
  List.length
    (filter (fun tok =>
               if in_dec string_dec (JS.toLowerCase tok) verbs
               then true else false)
            words).

(** A fence marker occurs somewhere in the string. *)
Fixpoint contains_fence (s : string) : bool :=
  starts_with fence s
  || match s with
     | EmptyString => false
     | String _ r => contains_fence r
     end.

(** A payload between an opening and a closing marker, with white space
    (line breaks, usually) [a] and [b] around it. *)
Definition fenced (a payload b : string) : string :=
  (fence_open ++ a ++ payload ++ b ++ fence)%string.

(** A character at which no quantifier match can start. *)
Definition inert (c : ascii) : bool :=
  negb (JS.is_digit c) && negb (is_char 36 c).

(** The statistics of a text made of terminal punctuation only. *)
Definition no_sentence_stats : Stats :=
  {| wordCount := 1; impactScore := 0%float; verbScore := 0%float;
     brevityScore := 80%float |}.

(** [quantifiers.length / (sentences.length || 1)], the ratio that
    [impactScore] scales and rounds. *)
Definition impact_ratio_of (quantifiers sentences : nat) : float :=
  (JS.num quantifiers / JS.num (JS.or_default sentences 1))%float.

Definition impact_ratio (text : string) : float :=
  impact_ratio_of (List.length (quantifiers_of text))
                  (List.length (sentences_of text)).

(** White space [ws] after the terminal mark [p] that ends [t] raises the
    sentence count and lowers both ratios. *)
Definition blank_lowers_ratios (t ws : string) (p : ascii) : Prop :=
  List.length (sentences_of (t ++ String p ""))
  < List.length (sentences_of (t ++ String p ws))
  /\ (impact_ratio (t ++ String p ws)
      <? impact_ratio (t ++ String p ""))%float = true
  /\ (avgSentenceLength (t ++ String p ws)
      <? avgSentenceLength (t ++ String p ""))%float = true.

(** The quotient of two counts as a rational number, before any
    rounding. *)
Definition exact_quotient (a b : nat) : QArith_base.Q :=
  QArith_base.Qmake (Z.of_nat a) (Pos.of_nat b).

(** Sixty times the letter [a]. *)
Definition sixty_a : string :=
  "aaaaaaaaaaaaaaaaaaaaaaaaaaaaaaaaaaaaaaaaaaaaaaaaaaaaaaaaaaaa".

(** ** Binary64 values used to state the properties *)

Local Open Scope Z_scope.

(** Not NaN, and not below zero. *)
Definition nonneg_sf (x : spec_float) : bool :=
  match x with
  | S754_zero false | S754_infinity false | S754_finite false _ _ => true
  | _ => false
  end.

(** Finite and above zero. *)
Definition finite_pos (x : spec_float) : bool :=
  match x with S754_finite false _ _ => true | _ => false end.

(** The mantissa and exponent of the binary64 that holds a positive
    integer below 2^53: the integer shifted left to 53 bits. *)
Definition norm_mant (p : positive) : positive :=
  match (53 - Zpos (digits2_pos p))%Z with
  | Zpos s => Pos.iter xO p s
  | _ => p
  end.

Definition norm_exp (p : positive) : Z := Zpos (digits2_pos p) - 53.

Definition sf_of_nat (n : nat) : spec_float :=
  match Z.of_nat n with
  | Zpos p => S754_finite false (norm_mant p) (norm_exp p)
  | _ => S754_zero false
  end.

Definition SF100 : spec_float := S754_finite false 7036874417766400 (-46).

Local Close Scope Z_scope.

(** ** Further notions used to state properties of the engine *)

(** No character of the string satisfies [p]. *)
Definition free_of (p : ascii -> bool) (s : string) : bool :=
  all_chars (fun c => negb (p c)) s.

(** A token: not empty, and without a character of the separator
    class. *)
Definition token (sep : ascii -> bool) (w : string) : Prop :=
  w <> "" /\ free_of sep w = true.

(** The shape of a quantifier match: a dollar sign and digits, or digits
    and one of [%], [k], [K], [m], [M], [+]. *)
Definition is_suffix_mark (c : ascii) : bool :=
  is_char 37 c || is_k c || is_m c || is_char 43 c.

(** Digits, if any, and then exactly one mark. *)
Fixpoint digits_mark (s : string) : bool :=
  match s with
  | EmptyString => false
  | String c EmptyString => is_suffix_mark c
  | String c r => JS.is_digit c && digits_mark r
  end.

Definition well_formed_quantifier (m : string) : bool :=
  match m with
  | EmptyString => false
  | String c r =>
      if is_char 36 c
      then (0 <? String.length r) && all_chars JS.is_digit r
      else JS.is_digit c && digits_mark r
  end.

(** The statistics of a text made of white space only. *)
Definition blank_stats : Stats :=
  {| wordCount := 0; impactScore := 0%float; verbScore := 0%float;
     brevityScore := 80%float |}.

(** ** The rest of the component: input fields, Pro status, reset *)

Definition setResumeText (s : string) (st : AppState) : AppState :=
  {| step := step st; resumeText := s; jobDesc := jobDesc st;
     stats := stats st; aiResult := aiResult st |}.

Definition setJobDesc (s : string) (st : AppState) : AppState :=
  {| step := step st; resumeText := resumeText st; jobDesc := s;
     stats := stats st; aiResult := aiResult st |}.

(** The whole state of [App]: the part the analysis uses, and the two
    flags [isPro] and [showUpgradeModal]. *)
Record Ui := {
  session : AppState;
  isPro : bool;
  showUpgradeModal : bool
}.

Definition initialUi : Ui :=
  {| session := initialState; isPro := false; showUpgradeModal := false |}.

Definition on_app (f : AppState -> AppState) (ui : Ui) : Ui :=
  {| session := f (session ui); isPro := isPro ui;
     showUpgradeModal := showUpgradeModal ui |}.

Definition setIsPro (b : bool) (ui : Ui) : Ui :=
  {| session := session ui; isPro := b; showUpgradeModal := showUpgradeModal ui |}.

Definition setShowUpgradeModal (b : bool) (ui : Ui) : Ui :=
  {| session := session ui; isPro := isPro ui; showUpgradeModal := b |}.

(** [reset]. *)
Definition reset (ui : Ui) : Ui :=
  on_app (fun st =>
            setAiResult VNull
              (setStats None
                 (setJobDesc "" (setResumeText "" (setStep 1 st))))) ui.

(** Which of the three returns of the component renders. *)
Inductive screen := InputScreen | AnalyzingScreen | ReportScreen.

Definition screen_of (ui : Ui) : screen :=
  if step (session ui) =? 1 then InputScreen
  else if step (session ui) =? 2 then AnalyzingScreen
  else ReportScreen.

(** The handlers attached to the elements of the three screens. *)
Inductive action :=
| ChangeResume (value : string)
| ChangeJobDesc (value : string)
| ClickAnalyze
| ClickNewScan
| ClickGoPro
| ClickLockedBar
| ClickUnlockRewrite
| ClickDownloadReport
| ClickUnlockPro
| ClickMaybeLater.

(** The screen on which an element with the handler can be rendered, and
    the flag its rendering is conditioned on.  This is an upper bound of
    what a rendered screen offers: the button under a rewrite needs a
    second bullet point as well, and a render that throws offers
    nothing. *)
Definition offered (ui : Ui) (a : action) : bool :=
  match screen_of ui, a with
  | InputScreen, (ChangeResume _ | ChangeJobDesc _ | ClickAnalyze) => true
  | ReportScreen, (ClickNewScan | ClickDownloadReport) => true
  | ReportScreen, (ClickGoPro | ClickLockedBar | ClickUnlockRewrite) =>
      negb (isPro ui)
  | ReportScreen, (ClickUnlockPro | ClickMaybeLater) => showUpgradeModal ui
  | _, _ => false
  end.

(** What each handler does.  [handleAnalyze] runs to its end: while it
    waits the analysing screen is shown, which has no control. *)
Definition dispatch (rt : Runtime) (a : action) (ui : Ui)
  : Ui * list event :=
  match a with
  | ChangeResume v => (on_app (setResumeText v) ui, [])
  | ChangeJobDesc v => (on_app (setJobDesc v) ui, [])
  | ClickAnalyze =>
      (on_app (fun st => fst (handleAnalyze rt st)) ui,
       snd (handleAnalyze rt (session ui)))
  | ClickNewScan => (reset ui, [])
  | ClickGoPro | ClickLockedBar | ClickUnlockRewrite | ClickDownloadReport =>
      (setShowUpgradeModal true ui, [])
  | ClickUnlockPro => (setShowUpgradeModal false (setIsPro true ui), [])
  | ClickMaybeLater => (setShowUpgradeModal false ui, [])
  end.

(** The states a session can be in between two handlers. *)
Inductive reachable (rt : Runtime) : Ui -> Prop :=
| reach_start : reachable rt initialUi
| reach_step (ui : Ui) (a : action) :
    reachable rt ui -> offered ui a = true ->
    reachable rt (fst (dispatch rt a ui)).

(** A sequence of user actions; one for which the screen has no control
    changes nothing. *)
Fixpoint run (rt : Runtime) (l : list action) (ui : Ui) : Ui :=
  match l with
  | [] => ui
  | a :: r =>
      run rt r (if offered ui a then fst (dispatch rt a ui) else ui)
  end.

(** [!API_KEY && ...]: the note about demo mode on the input screen. *)
Definition demo_note (rt : Runtime) : bool := negb (truthy (API_KEY rt)).

Definition is_request (e : event) : bool :=
  match e with RequestSent _ => true | _ => false end.

Definition is_alert (e : event) : bool :=
  match e with Alert _ => true | _ => false end.

Definition is_generator_call (e : event) : bool :=
  match e with
  | Call_realGeminiAnalysis _ _ | Call_mockAIAnalysis _ _ => true
  | _ => false
  end.

Definition count_events (p : event -> bool) (ev : list event) : nat :=
  List.length (filter p ev).

(** ** The lists of the report *)

(** [v.k], for a key that is not a property of any built-in prototype
    (as [bulletPoints], [missingKeywords], [original] and [improved] are
    not): [None] is the TypeError of reading a property of [null] or
    [undefined]. *)
Definition read (v : value) (k : string) : option value :=
  match v with
  | VUndefined | VNull => None
  | VObject fs =>
      Some (match assoc k fs with Some x => x | None => VUndefined end)
  | _ => Some VUndefined
  end.

(** [v?.k]. *)
Definition read_opt (v : value) (k : string) : value :=
  match read v k with
  | Some x => x
  | None => VUndefined
  end.

Fixpoint map_index {A : Type} (f : value -> nat -> option A)
         (items : list value) (i : nat) : option (list A) :=
  match items with
  | [] => Some []
  | x :: r =>
      match f x i with
      | None => None
      | Some y =>
          match map_index f r (S i) with
          | None => None
          | Some ys => Some (y :: ys)
          end
      end
  end.

(** [x?.map(f)] as rendered: nothing for [null] and [undefined], the
    images of the elements for an array, and a TypeError ([None]) for any
    other value, which has no callable [map], or when [f] throws. *)
Definition map_opt {A : Type} (x : value) (f : value -> nat -> option A)
  : option (list A) :=
  match x with
  | VUndefined | VNull => Some []
  | VArray items => map_index f items 0
  | _ => None
  end.

(** A value that React accepts as a child: a string or a number is
    shown, a boolean, [null] and [undefined] show nothing, and an array
    shows its elements.  A plain object is refused with the error
    [Objects are not valid as a React child], which takes the whole
    render down. *)
Fixpoint valid_child (v : value) : bool :=
  match v with
  | VObject _ => false
  | VArray items => forallb valid_child items
  | _ => true
  end.

(** One rewrite of the report: the two texts handed to React, and
    whether the improved one is blurred behind the unlock button
    ([!isPro && i > 0]). *)
Record rewrite_row := {
  original : value;
  improved : value;
  locked : bool
}.

(** The callback of [bulletPoints.map].  [None] is a render that throws:
    the TypeError of reading [original] of [null] or [undefined], or
    React's error when [original] or [improved] is not a valid child. *)
Definition rewrite_of (pro : bool) (item : value) (i : nat)
  : option rewrite_row :=
  match read item "original", read item "improved" with
  | Some o, Some m =>
      if valid_child o && valid_child m
      then Some {| original := o; improved := m;
                   locked := negb pro && (0 <? i) |}
      else None
  | _, _ => None
  end.

(** [aiResult?.bulletPoints?.map(...)]. *)
Definition rewrite_rows (ui : Ui) : option (list rewrite_row) :=
  map_opt (read_opt (aiResult (session ui)) "bulletPoints")
          (rewrite_of (isPro ui)).

(** The callback of [missingKeywords.map]: the keyword is a child of the
    chip. *)
Definition keyword_chip (kw : value) (i : nat) : option value :=
  if valid_child kw then Some kw else None.

(** [aiResult?.missingKeywords?.map(...)]. *)
Definition keyword_chips (ui : Ui) : option (list value) :=
  map_opt (read_opt (aiResult (session ui)) "missingKeywords") keyword_chip.

(** What the report shows of the analysis: the score and the summary,
    which are children of their elements, and the two lists. *)
Record report_view := {
  shown_score : value;
  shown_summary : value;
  shown_rewrites : list rewrite_row;
  shown_keywords : list value
}.

(** The analysis part of the third [return] of the component.  [None] is
    a render that throws, after which React shows nothing of the
    application. *)
Definition render_report (ui : Ui) : option report_view :=
  let score := read_opt (aiResult (session ui)) "score" in
  let summary := read_opt (aiResult (session ui)) "summary" in
  if valid_child score && valid_child summary then
    match rewrite_rows ui, keyword_chips ui with
    | Some rows, Some chips =>
        Some {| shown_score := score; shown_summary := summary;
                shown_rewrites := rows; shown_keywords := chips |}
    | _, _ => None
    end
  else None.

(** A bullet point whose row renders: it is not [null] or [undefined],
    and its two texts are valid children. *)
Definition row_ok (item : value) : bool :=
  negb (absent item)
  && valid_child (read_opt item "original")
  && valid_child (read_opt item "improved").

Definition is_array (v : value) : bool :=
  match v with VArray _ => true | _ => false end.

(** * Properties *)

(** ** Binary64 arithmetic *)

Section Binary64.
Local Open Scope Z_scope.

(** Rounding keeps a mantissa that is not negative that way, so the
    result of a division or a product of such Numbers is neither NaN nor
    negative. *)
Lemma shr_1_nonneg mrs : 0 <= shr_m mrs -> 0 <= shr_m (shr_1 mrs).
Proof.
  destruct mrs as [m r s]; simpl.
  destruct m as [|[p|p|]|[p|p|]]; simpl; lia.
Qed.

Lemma iter_shr_1_nonneg p : forall mrs,
  0 <= shr_m mrs -> 0 <= shr_m (iter_pos shr_1 p mrs).
Proof.
  induction p; intros mrs H; simpl; auto using shr_1_nonneg.
Qed.

Lemma shr_nonneg mrs e n : 0 <= shr_m mrs -> 0 <= shr_m (fst (shr mrs e n)).
Proof.
  intros H; destruct n; simpl; auto using iter_shr_1_nonneg.
Qed.

Lemma shr_fexp_nonneg m e l :
  0 <= m -> 0 <= shr_m (fst (shr_fexp prec emax m e l)).
Proof.
  intros H; unfold shr_fexp; apply shr_nonneg.
  destruct l as [|[]]; simpl; exact H.
Qed.

Lemma round_nearest_even_nonneg m l : 0 <= m -> 0 <= round_nearest_even m l.
Proof.
  intros H; destruct l as [|[]]; simpl; try lia.
  destruct (Z.even m); lia.
Qed.

Lemma binary_round_aux_nonneg mx ex lx :
  0 <= mx -> nonneg_sf (binary_round_aux prec emax false mx ex lx) = true.
Proof.
  intros H; unfold binary_round_aux.
  pose proof (shr_fexp_nonneg mx ex lx H) as H1.
  destruct (shr_fexp prec emax mx ex lx) as [mrs' e']; simpl in H1.
  pose proof (shr_fexp_nonneg _ e' loc_Exact
                (round_nearest_even_nonneg _ (loc_of_shr_record mrs') H1)) as H2.
  destruct (shr_fexp prec emax _ e' loc_Exact) as [mrs'' e'']; simpl in H2.
  destruct (shr_m mrs''); try lia; simpl; auto.
  destruct (_ <=? _); reflexivity.
Qed.

Lemma SFdiv_core_nonneg m1 e1 m2 e2 :
  0 <= fst (fst (SFdiv_core_binary prec emax (Zpos m1) e1 (Zpos m2) e2)).
Proof.
  unfold SFdiv_core_binary.
  set (s := _ - _ - _).
  set (m' := match s with Z0 => _ | Zpos _ => _ | Zneg _ => _ end).
  assert (Hm : 0 <= m').
  { subst m'; destruct s; try lia. apply Z.shiftl_nonneg; lia. }
  pose proof (Z_div_mod m' (Zpos m2) eq_refl) as Hd.
  destruct (Z.div_eucl m' (Zpos m2)) as [q r]; simpl.
  nia.
Qed.


Lemma SFdiv_nonneg x y :
  nonneg_sf x = true -> finite_pos y = true ->
  nonneg_sf (SFdiv prec emax x y) = true.
Proof.
  destruct x as [[]|[]| |[] mx ex]; destruct y as [[]|[]| |[] my ey];
    simpl; try discriminate; auto; intros _ _.
  pose proof (SFdiv_core_nonneg mx ex my ey) as H.
  destruct (SFdiv_core_binary prec emax (Zpos mx) ex (Zpos my) ey) as [[mz ez] lz].
  apply binary_round_aux_nonneg; exact H.
Qed.

Lemma SFmul_nonneg x y :
  nonneg_sf x = true -> finite_pos y = true ->
  nonneg_sf (SFmul prec emax x y) = true.
Proof.
  destruct x as [[]|[]| |[] mx ex]; destruct y as [[]|[]| |[] my ey];
    simpl; try discriminate; auto; intros _ _.
  apply binary_round_aux_nonneg; lia.
Qed.

(** digits *)
Lemma digits2_pos_iter_xO n p :
  digits2_pos (Pos.iter xO p n) = (digits2_pos p + n)%positive.
Proof.
  induction n using Pos.peano_ind.
  - simpl. lia.
  - rewrite Pos.iter_succ. simpl. rewrite IHn. lia.
Qed.

Lemma iter_xO_mul n p : Zpos (Pos.iter xO p n) = Zpos p * 2 ^ Zpos n.
Proof.
  induction n using Pos.peano_ind.
  - simpl. lia.
  - rewrite Pos.iter_succ, Pos2Z.inj_succ, Z.pow_succ_r by lia.
    rewrite Pos2Z.inj_xO, IHn. lia.
Qed.

Lemma digits2_pos_bound p :
  2 ^ (Zpos (digits2_pos p) - 1) <= Zpos p < 2 ^ Zpos (digits2_pos p).
Proof.
  induction p; simpl digits2_pos.
  - rewrite Pos2Z.inj_succ.
    replace (Z.succ (Zpos (digits2_pos p)) - 1)
      with (Z.succ (Zpos (digits2_pos p) - 1)) by lia.
    rewrite !Z.pow_succ_r by lia. lia.
  - rewrite Pos2Z.inj_succ.
    replace (Z.succ (Zpos (digits2_pos p)) - 1)
      with (Z.succ (Zpos (digits2_pos p) - 1)) by lia.
    rewrite !Z.pow_succ_r by lia. lia.
  - simpl. lia.
Qed.

(** a canonical mantissa is left alone by rounding *)
Lemma binary_round_aux_canonical s m e :
  digits2_pos m = 53%positive -> -1074 <= e <= 971 ->
  binary_round_aux prec emax s (Zpos m) e loc_Exact = S754_finite s m e.
Proof.
  intros Hd He. unfold binary_round_aux.
  assert (Hs : shr_fexp prec emax (Zpos m) e loc_Exact
               = ({| shr_m := Zpos m; shr_r := false; shr_s := false |}, e)).
  { unfold shr_fexp, fexp, SpecFloat.emin, Zdigits2. rewrite Hd.
    unfold prec, emax.
    replace (Z.max (53 + e - 53) (3 - 1024 - 53) - e) with 0 by lia.
    reflexivity. }
  rewrite Hs. simpl. rewrite Hs. simpl.
  replace (e <=? 971) with true by (symmetry; apply Z.leb_le; lia).
  reflexivity.
Qed.



Lemma digits2_pos_le_53 p : Zpos p < 2 ^ 53 -> Zpos (digits2_pos p) <= 53.
Proof.
  intros H. pose proof (digits2_pos_bound p) as [Hl _].
  destruct (Z_le_gt_dec (Zpos (digits2_pos p)) 53) as [|Hgt]; auto.
  exfalso.
  assert (2 ^ 53 <= 2 ^ (Zpos (digits2_pos p) - 1)) by (apply Z.pow_le_mono_r; lia).
  lia.
Qed.

Lemma binary_round_int p :
  Zpos p < 2 ^ 53 ->
  binary_round prec emax false p 0 = S754_finite false (norm_mant p) (norm_exp p).
Proof.
  intros H. pose proof (digits2_pos_le_53 p H) as Hd.
  unfold binary_round, shl_align, fexp, SpecFloat.emin, norm_mant, norm_exp, prec, emax.
  replace (Z.max (Zpos (digits2_pos p) + 0 - 53) (3 - 1024 - 53) - 0)
    with (Zpos (digits2_pos p) - 53) by lia.
  replace (Z.max (Zpos (digits2_pos p) + 0 - 53) (3 - 1024 - 53))
    with (Zpos (digits2_pos p) - 53) by lia.
  destruct (Zpos (digits2_pos p) - 53) as [|s|s] eqn:E; try lia.
  - replace (53 - Zpos (digits2_pos p)) with 0 by lia.
    apply binary_round_aux_canonical; [|lia].
    apply Pos2Z.inj; lia.
  - replace (53 - Zpos (digits2_pos p)) with (Zpos s) by lia.
    apply binary_round_aux_canonical; [|lia].
    rewrite digits2_pos_iter_xO. apply Pos2Z.inj. rewrite Pos2Z.inj_add. lia.
Qed.



Lemma num_spec n : Z.of_nat n < 2 ^ 53 -> Prim2SF (JS.num n) = sf_of_nat n.
Proof.
  intros H. unfold JS.num, sf_of_nat. rewrite FloatAxioms.of_uint63_spec, Uint63.of_Z_spec.
  rewrite Z.mod_small.
  2:{ split; [lia|]. unfold wB. simpl. lia. }
  destruct (Z.of_nat n) as [|p|p] eqn:E; try lia; simpl; auto.
  apply binary_round_int. lia.
Qed.

Lemma norm_mant_value p :
  Zpos p < 2 ^ 53 ->
  Zpos (norm_mant p) = Zpos p * 2 ^ (53 - Zpos (digits2_pos p)).
Proof.
  intros H. pose proof (digits2_pos_le_53 p H) as Hd. unfold norm_mant.
  destruct (53 - Zpos (digits2_pos p)) as [|s|s] eqn:E; try lia.
  apply iter_xO_mul.
Qed.

Lemma digits2_pos_mono p q :
  Zpos (digits2_pos p) < Zpos (digits2_pos q) -> Zpos p < Zpos q.
Proof.
  intros H. pose proof (digits2_pos_bound p) as [_ Hp].
  pose proof (digits2_pos_bound q) as [Hq _].
  assert (2 ^ Zpos (digits2_pos p) <= 2 ^ (Zpos (digits2_pos q) - 1))
    by (apply Z.pow_le_mono_r; lia).
  lia.
Qed.

Lemma SFcompare_nat a b :
  Z.of_nat a < 2 ^ 53 -> Z.of_nat b < 2 ^ 53 ->
  SFcompare (sf_of_nat a) (sf_of_nat b) = Some (Z.of_nat a ?= Z.of_nat b).
Proof.
  intros Ha Hb. unfold sf_of_nat.
  destruct (Z.of_nat a) as [|p|p] eqn:Ea; try lia;
    destruct (Z.of_nat b) as [|q|q] eqn:Eb; try lia; simpl; auto.
  unfold norm_exp.
  destruct (Z.compare_spec (Zpos (digits2_pos p) - 53) (Zpos (digits2_pos q) - 53))
    as [E|E|E].
  - f_equal. change (Pos.compare_cont Eq (norm_mant p) (norm_mant q))
      with (Pos.compare (norm_mant p) (norm_mant q)).
    rewrite !Pos2Z.inj_compare, !norm_mant_value by assumption.
    replace (Zpos (digits2_pos q)) with (Zpos (digits2_pos p)) by lia.
    assert (Ht : 0 < 2 ^ (53 - Zpos (digits2_pos p))).
    { apply Z.pow_pos_nonneg; [lia|].
      pose proof (digits2_pos_le_53 p Ha). lia. }
    destruct (Z.compare_spec (Zpos p) (Zpos q));
      [apply Z.compare_eq_iff | apply Z.compare_lt_iff | apply Z.compare_gt_iff];
      nia.
  - f_equal. symmetry. rewrite Pos2Z.inj_compare. apply Z.compare_lt_iff.
    apply digits2_pos_mono. lia.
  - f_equal. symmetry. rewrite Pos2Z.inj_compare. apply Z.compare_gt_iff.
    apply digits2_pos_mono. lia.
Qed.



Lemma SFcompare_refl x : x <> S754_nan -> SFcompare x x = Some Eq.
Proof.
  destruct x as [[]|[]| |[] m e]; simpl; try congruence; intros _;
    rewrite Z.compare_refl, Pos.compare_cont_refl; reflexivity.
Qed.

Lemma is_nan_false b : Prim2SF b <> S754_nan -> PrimFloat.is_nan b = false.
Proof.
  intros H. unfold PrimFloat.is_nan. rewrite FloatAxioms.eqb_spec. unfold SFeqb.
  rewrite (SFcompare_refl _ H). reflexivity.
Qed.

Lemma sf_of_nat_not_nan n : sf_of_nat n <> S754_nan.
Proof. unfold sf_of_nat. destruct (Z.of_nat n); discriminate. Qed.

Lemma num_not_nan n : Z.of_nat n < 2 ^ 53 -> PrimFloat.is_nan (JS.num n) = false.
Proof.
  intros H. apply is_nan_false. rewrite num_spec by assumption.
  apply sf_of_nat_not_nan.
Qed.

Lemma num_ltb a b :
  Z.of_nat a < 2 ^ 53 -> Z.of_nat b < 2 ^ 53 ->
  (JS.num a <? JS.num b)%float = (a <? b)%nat.
Proof.
  intros Ha Hb. rewrite FloatAxioms.ltb_spec, !num_spec by assumption.
  unfold SFltb. rewrite SFcompare_nat by assumption.
  destruct (Nat.ltb_spec a b) as [H|H].
  - replace (Z.of_nat a ?= Z.of_nat b) with Lt; auto.
    symmetry; apply Z.compare_lt_iff; lia.
  - destruct (Z.compare_spec (Z.of_nat a) (Z.of_nat b)); auto; lia.
Qed.

Lemma Math_min_num a b :
  Z.of_nat a < 2 ^ 53 -> Z.of_nat b < 2 ^ 53 ->
  JS.Math_min (JS.num a) (JS.num b) = JS.num (Nat.min a b).
Proof.
  intros Ha Hb. unfold JS.Math_min.
  rewrite !num_not_nan, !num_ltb by assumption. simpl.
  destruct (Nat.ltb_spec a b) as [H|H].
  - rewrite Nat.min_l by lia. reflexivity.
  - destruct (Nat.ltb_spec b a) as [H'|H'].
    + rewrite Nat.min_r by lia. reflexivity.
    + replace b with a by lia. rewrite Nat.min_id.
      destruct (PrimFloat.get_sign (JS.num a)); reflexivity.
Qed.


Lemma Prim2SF_100 : Prim2SF 100%float = SF100.
Proof. reflexivity. Qed.

Lemma Math_min_100_above b :
  SFltb SF100 (Prim2SF b) = true -> JS.Math_min 100%float b = 100%float.
Proof.
  intros H. unfold JS.Math_min.
  rewrite (is_nan_false b).
  2:{ intros E. rewrite E in H. discriminate. }
  rewrite FloatAxioms.ltb_spec, Prim2SF_100, H. reflexivity.
Qed.

Lemma valid_mantissa_bound s m e :
  valid_binary (S754_finite s m e) = true -> Zpos m < 2 ^ 53.
Proof.
  simpl. unfold bounded, canonical_mantissa, fexp, SpecFloat.emin, prec, emax.
  intros H. apply andb_true_iff in H. destruct H as [H _].
  apply Z.eqb_eq in H.
  pose proof (digits2_pos_bound m) as [_ Hm].
  assert (2 ^ Zpos (digits2_pos m) <= 2 ^ 53) by (apply Z.pow_le_mono_r; lia).
  lia.
Qed.

Lemma num_of_Z k :
  0 <= k -> PrimFloat.of_uint63 (Uint63.of_Z k) = JS.num (Z.to_nat k).
Proof. intros H. unfold JS.num. rewrite Z2Nat.id by assumption. reflexivity. Qed.

(** Rounding and clamping a non-negative Number gives an integer from 0
    to 100. *)
Lemma round_min_100 x :
  nonneg_sf (Prim2SF x) = true ->
  exists k, (k <= 100)%nat /\ JS.Math_min 100%float (JS.Math_round x) = JS.num k.
Proof.
  intros Hx. unfold JS.Math_round.
  pose proof (Prim2SF_valid x) as Hv.
  destruct (Prim2SF x) as [[]|[]| |[] m e] eqn:E; try discriminate.
  - exists 0%nat. split; [lia|].
    assert (x = JS.num 0) as -> by (apply Prim2SF_inj; rewrite E; reflexivity).
    apply (Math_min_num 100 0); simpl; lia.
  - exists 100%nat. split; [lia|].
    apply Math_min_100_above. rewrite E. reflexivity.
  - destruct (Z.leb_spec 0 e) as [He|He].
    + exists 100%nat. split; [lia|].
      apply Math_min_100_above. rewrite E. unfold SFltb, SF100; simpl.
      destruct e; [reflexivity|reflexivity|lia].
    + apply valid_mantissa_bound in Hv.
      set (k := (2 * cond_Zopp false (Zpos m) + 2 ^ (- e)) / 2 ^ (1 - e)).
      assert (Hk : 0 <= k < 2 ^ 53).
      { subst k. simpl cond_Zopp.
        replace (1 - e) with (Z.succ (- e)) by lia.
        rewrite Z.pow_succ_r by lia.
        assert (Ht : 2 <= 2 ^ (- e)).
        { change 2 with (2 ^ 1) at 1. apply Z.pow_le_mono_r; lia. }
        set (t := 2 ^ (- e)) in *.
        pose proof (Z.div_pos (2 * Zpos m + t) (2 * t)).
        pose proof (Z.mul_div_le (2 * Zpos m + t) (2 * t)).
        split; [lia|]. 
        destruct (Z_le_gt_dec ((2 * Zpos m + t) / (2 * t)) 0); [lia|]. nia. }
      destruct (Z.eqb_spec k 0) as [K0|K0].
      * exists 0%nat. split; [lia|]. apply (Math_min_num 100 0); simpl; lia.
      * replace (k <? 0) with false by (symmetry; apply Z.ltb_ge; lia).
        rewrite num_of_Z by lia.
        exists (Nat.min 100 (Z.to_nat k)). split; [lia|].
        apply (Math_min_num 100 (Z.to_nat k)); [simpl; lia|].
        rewrite Z2Nat.id; lia.
Qed.

End Binary64.

(** ** The engine on the scenarios of the specification *)

Example sixty_a_scenario :
  String.length sixty_a = 60
  /\ sentences_of sixty_a = [sixty_a]
  /\ calculateStats sixty_a
     = Some {| wordCount := 1; impactScore := 0%float;
               verbScore := 0%float; brevityScore := 80%float |}.
Proof. repeat split; vm_compute; reflexivity. Qed.

Example two_quantifiers_scenario :
  quantifiers_of "Increased revenue by 20% and reduced costs by 15%."
  = ["20%"; "15%"]
  /\ sentences_of "Increased revenue by 20% and reduced costs by 15%."
     = ["Increased revenue by 20% and reduced costs by 15%"]
  /\ option_map impactScore
       (calculateStats "Increased revenue by 20% and reduced costs by 15%.")
     = Some 100%float.
Proof. repeat split; vm_compute; reflexivity. Qed.

(** The scores follow binary64 arithmetic: one quantifier in twelve
    sentences gives [1 / 12 * 100 * 1.5], a little under 12.5, and so
    12. *)
Example impact_rounds_as_binary64 :
  (JS.num 1 / JS.num 12 * 100 * 1.5)%float = 0x1.8ffffffffffffp+3%float
  /\ impact_of 1 12 = 12%float.
Proof. split; vm_compute; reflexivity. Qed.

(** ** The orchestrator *)

Local Open Scope nat_scope.

Lemma handleAnalyze_short (rt : Runtime) (st : AppState) :
  String.length (resumeText st) < 50 ->
  handleAnalyze rt st = (st, [Alert short_text_message]).
Proof.
  intros H. unfold handleAnalyze.
  apply Nat.ltb_lt in H. rewrite H. reflexivity.
Qed.

(** C3. A text of fewer than 50 characters is turned away with the
    alert for short texts and nothing else happens: the state is left as
    it was (no statistics are stored), and neither [calculateStats] nor a
    generator is called. *)
Theorem short_text_rejected (rt : Runtime) (st : AppState) :
  String.length (resumeText st) < 50 ->
  handleAnalyze rt st = (st, [Alert short_text_message])
  /\ stats (fst (handleAnalyze rt st)) = stats st
  /\ aiResult (fst (handleAnalyze rt st)) = aiResult st
  /\ calls_stats (snd (handleAnalyze rt st)) = false
  /\ calls_remote (snd (handleAnalyze rt st)) = false
  /\ calls_mock (snd (handleAnalyze rt st)) = false.
Proof.
  intros H. rewrite (handleAnalyze_short rt st H).
  repeat split; reflexivity.
Qed.

Lemma short_text_rejected_witness :
  String.length (resumeText initialState) < 50
  /\ handleAnalyze offline initialState
     = (initialState, [Alert short_text_message]).
Proof.
  split; [simpl; lia|].
  apply (short_text_rejected offline initialState). simpl; lia.
Defined.

Lemma handleAnalyze_mock (rt : Runtime) (st : AppState) :
  50 <= String.length (resumeText st) ->
  truthy (API_KEY rt) = false ->
  handleAnalyze rt st
  = (setStep 3
       (setAiResult (mock_value (jobDesc st))
          (setStats (calculateStats (resumeText st)) (setStep 2 st))),
     [Call_calculateStats (resumeText st);
      ConsoleLog "No API Key found. Using Mock Service.";
      Call_mockAIAnalysis (resumeText st) (jobDesc st);
      SetTimeout 1500]).
Proof.
  intros Hlen Hkey. unfold handleAnalyze.
  apply Nat.ltb_ge in Hlen. rewrite Hlen, Hkey. reflexivity.
Qed.

Lemma handleAnalyze_remote (rt : Runtime) (st : AppState) :
  50 <= String.length (resumeText st) ->
  truthy (API_KEY rt) = true ->
  handleAnalyze rt st
  = (match snd (realGeminiAnalysis rt (resumeText st) (jobDesc st)) with
     | Resolved v =>
         setStep 3
           (setAiResult v
              (setStats (calculateStats (resumeText st)) (setStep 2 st)))
     | Rejected => setStats (calculateStats (resumeText st)) (setStep 2 st)
     end,
     Call_calculateStats (resumeText st)
       :: Call_realGeminiAnalysis (resumeText st) (jobDesc st)
       :: fst (realGeminiAnalysis rt (resumeText st) (jobDesc st))).
Proof.
  intros Hlen Hkey. unfold handleAnalyze.
  apply Nat.ltb_ge in Hlen. rewrite Hlen, Hkey.
  cbn [resumeText jobDesc setStep setStats].
  destruct (realGeminiAnalysis rt (resumeText st) (jobDesc st)) as [e r].
  destruct r; reflexivity.
Qed.

Lemma realGeminiAnalysis_events (rt : Runtime) (text jd : string) :
  calls_mock (fst (realGeminiAnalysis rt text jd)) = false.
Proof.
  unfold realGeminiAnalysis.
  destruct (generateContent rt _) as [t|]; [|reflexivity].
  destruct (clean_and_parse rt t); reflexivity.
Qed.

Lemma truthy_iff (s : string) : truthy s = true <-> s <> "".
Proof. destruct s; simpl; split; congruence. Qed.

Lemma not_truthy_iff (s : string) : truthy s = false <-> s = "".
Proof. destruct s; simpl; split; congruence. Qed.

(** C1. Past validation the generator is chosen by the credential
    alone: the remote client is called exactly when the key is not the
    empty string and the mock generator exactly when it is.  Without a
    key no run of the handler, on any text, calls the remote client or
    sends a request, and a validated run ends at the report step with the
    mock generator's value. *)
Theorem generator_selected_by_credential (rt : Runtime) (st : AppState) :
  (50 <= String.length (resumeText st) ->
   (calls_remote (snd (handleAnalyze rt st)) = true <-> API_KEY rt <> "")
   /\ (calls_mock (snd (handleAnalyze rt st)) = true <-> API_KEY rt = "")
   /\ calls_remote (snd (handleAnalyze rt st))
      = negb (calls_mock (snd (handleAnalyze rt st))))
  /\ (API_KEY rt = "" ->
      calls_remote (snd (handleAnalyze rt st)) = false
      /\ (50 <= String.length (resumeText st) ->
          aiResult (fst (handleAnalyze rt st)) = mock_value (jobDesc st)
          /\ step (fst (handleAnalyze rt st)) = 3)).
Proof.
  split.
  - intros Hlen. destruct (truthy (API_KEY rt)) eqn:Hkey.
    + rewrite (handleAnalyze_remote rt st Hlen Hkey).
      cbn [snd calls_remote calls_mock existsb is_remote_event is_mock_event orb].
      fold (calls_mock (fst (realGeminiAnalysis rt (resumeText st) (jobDesc st)))).
      rewrite realGeminiAnalysis_events.
      apply truthy_iff in Hkey.
      repeat split; intros; try congruence; try discriminate.
    + rewrite (handleAnalyze_mock rt st Hlen Hkey).
      apply not_truthy_iff in Hkey.
      repeat split; intros; simpl in *; try congruence; try discriminate.
  - intros Hkey. apply not_truthy_iff in Hkey. split.
    + destruct (Nat.lt_ge_cases (String.length (resumeText st)) 50) as [Hs|Hl].
      * rewrite (handleAnalyze_short rt st Hs). reflexivity.
      * rewrite (handleAnalyze_mock rt st Hl Hkey). reflexivity.
    + intros Hl. rewrite (handleAnalyze_mock rt st Hl Hkey). split; reflexivity.
Qed.

Lemma generator_selected_by_credential_witness :
  50 <= String.length (resumeText sample_state)
  /\ API_KEY offline = ""
  /\ calls_remote (snd (handleAnalyze offline sample_state)) = false
  /\ aiResult (fst (handleAnalyze offline sample_state)) = mock_value "".
Proof.
  split; [vm_compute; lia|]. split; [reflexivity|].
  destruct (generator_selected_by_credential offline sample_state) as [_ H].
  destruct (H eq_refl) as [H1 H2]. split; [exact H1|].
  apply H2. vm_compute; lia.
Defined.

(** C9. The mock generator always resolves, after a timer of 1500 ms,
    with an object whose score is 72, whose summary, two bullet points and
    soft skills are fixed, and whose missing keywords are one of two fixed
    lists chosen by whether the job description is the empty string.  The
    resume text plays no part, and of the job description only its
    emptiness does. *)
Theorem mock_generator_fixed (text jd : string) :
  mockAIAnalysis text jd = ([SetTimeout 1500], Resolved (mock_value jd))
  /\ field "score" (mock_value jd) = Some (VNumber 72%float)
  /\ field "summary" (mock_value jd) = Some (VString mock_summary)
  /\ field "bulletPoints" (mock_value jd) = Some (VArray mock_bulletPoints)
  /\ List.length mock_bulletPoints = 2
  /\ field "softSkills" (mock_value jd) = Some (VArray mock_softSkills)
  /\ field "missingKeywords" (mock_value jd)
     = Some (VArray (match jd with
                     | EmptyString => keywords_without_job
                     | String _ _ => keywords_with_job
                     end))
  /\ keywords_with_job <> keywords_without_job
  /\ has_required_fields (mock_value jd) = true
  /\ (forall text' jd',
        truthy jd' = truthy jd ->
        mockAIAnalysis text' jd' = mockAIAnalysis text jd).
Proof.
  repeat split; try reflexivity.
  - destruct jd; reflexivity.
  - discriminate.
  - intros text' jd' H. unfold mockAIAnalysis, mock_value. rewrite H.
    reflexivity.
Qed.

(** ** The remote client on failure *)

(** The requirement as the spec words it: whenever the remote call fails
    in one of the three ways, the caller gets no usable value, the mock
    generator is not called and no analysis is held afterwards. *)
Lemma malformed_payload_is_accepted :
  ~ (forall (rt : Runtime) (st : AppState),
       API_KEY rt <> "" ->
       50 <= String.length (resumeText st) ->
       remote_failure rt (resumeText st) (jobDesc st) <> None ->
       no_usable_value
         (snd (realGeminiAnalysis rt (resumeText st) (jobDesc st))) = true
       /\ calls_mock (snd (handleAnalyze rt st)) = false
       /\ absent (aiResult (fst (handleAnalyze rt st))) = true).
Proof.
  intros H.
  destruct (H answers_empty_object sample_state) as [H1 _].
  - discriminate.
  - vm_compute; lia.
  - discriminate.
  - discriminate.
Qed.

Lemma realGeminiAnalysis_caught (rt : Runtime) (text jd : string) :
  remote_failure rt text jd = Some NetworkFailure
  \/ remote_failure rt text jd = Some ParseFailure ->
  realGeminiAnalysis rt text jd
  = ([RequestSent (userPrompt text jd); ConsoleError;
      Alert api_error_message], Resolved VUndefined).
Proof.
  unfold remote_failure, realGeminiAnalysis.
  destruct (generateContent rt _) as [t|]; [|reflexivity].
  destruct (clean_and_parse rt t) as [v|]; [|reflexivity].
  destruct (has_required_fields v); intros [H|H]; discriminate.
Qed.

Lemma realGeminiAnalysis_parsed (rt : Runtime) (text jd t : string) (v : value) :
  generateContent rt (userPrompt text jd) = Some t ->
  clean_and_parse rt t = Some v ->
  realGeminiAnalysis rt text jd = ([RequestSent (userPrompt text jd)], Resolved v).
Proof.
  intros Hg Hp. unfold realGeminiAnalysis. rewrite Hg, Hp. reflexivity.
Qed.

(** C2, as the code has it.  With a credential and a validated text: a
    call that fails on the network or the API, or whose response does not
    parse after fence stripping, is caught inside the client, which logs,
    alerts and resolves with [undefined]; the handler then holds
    [undefined] as the analysis, has stored the statistics, has not called
    the mock generator and stands at the report step.  A response that
    parses is returned and stored as it is, whatever fields it has. *)
Theorem remote_failure_behaviour (rt : Runtime) (st : AppState) :
  API_KEY rt <> "" ->
  50 <= String.length (resumeText st) ->
  (remote_failure rt (resumeText st) (jobDesc st) = Some NetworkFailure
   \/ remote_failure rt (resumeText st) (jobDesc st) = Some ParseFailure ->
   realGeminiAnalysis rt (resumeText st) (jobDesc st)
   = ([RequestSent (userPrompt (resumeText st) (jobDesc st)); ConsoleError;
       Alert api_error_message], Resolved VUndefined)
   /\ calls_mock (snd (handleAnalyze rt st)) = false
   /\ aiResult (fst (handleAnalyze rt st)) = VUndefined
   /\ stats (fst (handleAnalyze rt st)) = calculateStats (resumeText st)
   /\ step (fst (handleAnalyze rt st)) = 3)
  /\ (forall t v,
        generateContent rt (userPrompt (resumeText st) (jobDesc st)) = Some t ->
        clean_and_parse rt t = Some v ->
        snd (realGeminiAnalysis rt (resumeText st) (jobDesc st)) = Resolved v
        /\ calls_mock (snd (handleAnalyze rt st)) = false
        /\ aiResult (fst (handleAnalyze rt st)) = v
        /\ step (fst (handleAnalyze rt st)) = 3).
Proof.
  intros Hkey Hlen. apply truthy_iff in Hkey.
  rewrite (handleAnalyze_remote rt st Hlen Hkey). split.
  - intros Hf. rewrite (realGeminiAnalysis_caught rt _ _ Hf).
    repeat split; reflexivity.
  - intros t v Hg Hp. rewrite (realGeminiAnalysis_parsed rt _ _ t v Hg Hp).
    repeat split; reflexivity.
Qed.

Lemma remote_failure_behaviour_witness :
  API_KEY unreachable <> ""
  /\ 50 <= String.length (resumeText sample_state)
  /\ remote_failure unreachable (resumeText sample_state) (jobDesc sample_state)
     = Some NetworkFailure
  /\ aiResult (fst (handleAnalyze unreachable sample_state)) = VUndefined
  /\ calls_mock (snd (handleAnalyze unreachable sample_state)) = false.
Proof.
  assert (Hk : API_KEY unreachable <> "") by discriminate.
  assert (Hl : 50 <= String.length (resumeText sample_state))
    by (vm_compute; lia).
  split; [exact Hk|]. split; [exact Hl|]. split; [reflexivity|].
  destruct (remote_failure_behaviour unreachable sample_state Hk Hl) as [H _].
  destruct (H (or_introl eq_refl)) as (_ & Hm & Ha & _).
  split; assumption.
Defined.

(** ** Sizes of the token lists *)

Lemma length_snoc (s : string) (c : ascii) :
  String.length (s ++ String c "") = S (String.length s).
Proof. induction s; simpl; congruence. Qed.

Lemma split_go_total (sep : ascii -> bool) (s : string) :
  forall cur b,
    total_length (JS.split_go sep s cur b)
    <= String.length cur + String.length s.
Proof.
  induction s as [|c r IH]; intros cur b; simpl.
  - lia.
  - destruct (sep c).
    + destruct b; simpl.
      * specialize (IH "" true). simpl in IH. lia.
      * specialize (IH "" true). simpl in IH. lia.
    + specialize (IH (cur ++ String c "")%string false).
      rewrite length_snoc in IH. lia.
Qed.

Lemma filter_nonempty_length (l : list string) :
  List.length (filter nonempty l) <= total_length l.
Proof.
  induction l as [|w l IH]; simpl; [lia|].
  unfold nonempty at 1. destruct (Nat.ltb_spec 0 (String.length w)); simpl; lia.
Qed.

Lemma filter_total_length (f : string -> bool) (l : list string) :
  total_length (filter f l) <= total_length l.
Proof.
  induction l as [|w l IH]; simpl; [lia|].
  destruct (f w); simpl; lia.
Qed.

Lemma words_of_total (text : string) :
  total_length (words_of text) <= String.length text.
Proof.
  unfold words_of. etransitivity; [apply filter_total_length|].
  apply (split_go_total JS.is_space text "" false).
Qed.

Lemma words_of_length (text : string) :
  List.length (words_of text) <= String.length text.
Proof.
  etransitivity; [apply filter_nonempty_length|].
  apply (split_go_total JS.is_space text "" false).
Qed.

Lemma sentences_of_length (text : string) :
  List.length (sentences_of text) <= String.length text.
Proof.
  etransitivity; [apply filter_nonempty_length|].
  apply (split_go_total is_terminal text "" false).
Qed.

Lemma match_from_length (s : string) :
  forall skip, List.length (match_from s skip) <= String.length s.
Proof.
  induction s as [|c r IH]; intros skip; [simpl; lia|].
  cbn [match_from]. destruct skip as [|k].
  - destruct (quantifier_at (String c r)) as [n|]; simpl.
    + specialize (IH (n - 1)). lia.
    + specialize (IH 0). lia.
  - specialize (IH k). simpl. lia.
Qed.

Lemma quantifiers_of_length (text : string) :
  List.length (quantifiers_of text) <= String.length text.
Proof.
  unfold quantifiers_of, match_quantifiers.
  pose proof (match_from_length text 0) as H.
  destruct (match_from text 0); simpl in *; lia.
Qed.

(** ** Verb classification *)

Lemma toLowerCase_length (s : string) :
  String.length (JS.toLowerCase s) = String.length s.
Proof. induction s; simpl; congruence. Qed.

Lemma includes_In (l : list string) (x : string) :
  JS.includes l x = true <-> In x l.
Proof.
  unfold JS.includes. rewrite existsb_exists. split.
  - intros (y & Hy & E). apply String.eqb_eq in E. subst. exact Hy.
  - intros H. exists x. split; [exact H|apply String.eqb_refl].
Qed.

Lemma listed_verb_length (w : string) :
  JS.includes strongVerbs (JS.toLowerCase w) = true
  \/ JS.includes weakVerbs (JS.toLowerCase w) = true ->
  6 <= String.length w.
Proof.
  rewrite <- (toLowerCase_length w), !includes_In.
  intros [H|H]; simpl in H;
    repeat (destruct H as [H|H]; [rewrite <- H; simpl; lia|]);
    contradiction.
Qed.

Lemma count_verb_bound (sc wc : nat) (w : string) :
  3 * (fst (count_verb (sc, wc) w) + snd (count_verb (sc, wc) w))
  <= 3 * (sc + wc) + String.length w.
Proof.
  pose proof (listed_verb_length w) as H. unfold count_verb.
  destruct (JS.includes strongVerbs (JS.toLowerCase w));
    destruct (JS.includes weakVerbs (JS.toLowerCase w)); simpl;
    try (assert (6 <= String.length w) by (apply H; auto)); lia.
Qed.

Lemma fold_count_verb_bound (words : list string) :
  forall acc,
    3 * (fst (fold_left count_verb words acc)
         + snd (fold_left count_verb words acc))
    <= 3 * (fst acc + snd acc) + total_length words.
Proof.
  induction words as [|w l IH]; intros [sc wc]; simpl; [lia|].
  specialize (IH (count_verb (sc, wc) w)).
  pose proof (count_verb_bound sc wc w). simpl in *. lia.
Qed.

Lemma verb_counts_bound (text : string) :
  3 * (fst (verb_counts (words_of text)) + snd (verb_counts (words_of text)))
  <= String.length text.
Proof.
  pose proof (fold_count_verb_bound (words_of text) (0, 0)) as H.
  pose proof (words_of_total text). unfold verb_counts. simpl in H. lia.
Qed.

(** ** Ranges of the scores *)

Lemma sf_of_nat_nonneg (n : nat) : nonneg_sf (sf_of_nat n) = true.
Proof. unfold sf_of_nat. destruct (Z.of_nat n); reflexivity. Qed.

Lemma sf_of_nat_finite_pos (n : nat) : 0 < n -> finite_pos (sf_of_nat n) = true.
Proof.
  intros H. unfold sf_of_nat.
  destruct (Z.of_nat n) eqn:E; try lia; reflexivity.
Qed.

Lemma or_default_pos (n : nat) : 0 < JS.or_default n 1.
Proof. destruct n; simpl; lia. Qed.

Lemma or_default_le (n m : nat) : n <= m -> 0 < m -> JS.or_default n 1 <= m.
Proof. destruct n; simpl; lia. Qed.

(** A quotient of two counts is a Number that is neither NaN nor
    negative, as long as the divisor is not zero. *)
Lemma quotient_nonneg (a b : nat) :
  (Z.of_nat a < 2 ^ 53)%Z -> (Z.of_nat b < 2 ^ 53)%Z -> 0 < b ->
  nonneg_sf (Prim2SF (JS.num a / JS.num b)) = true.
Proof.
  intros Ha Hb Hpos.
  rewrite FloatAxioms.div_spec, !num_spec by assumption.
  apply SFdiv_nonneg; [apply sf_of_nat_nonneg|].
  apply sf_of_nat_finite_pos; assumption.
Qed.

Lemma times_nonneg (x c : float) :
  nonneg_sf (Prim2SF x) = true -> finite_pos (Prim2SF c) = true ->
  nonneg_sf (Prim2SF (x * c)) = true.
Proof.
  intros Hx Hc. rewrite FloatAxioms.mul_spec. apply SFmul_nonneg; assumption.
Qed.

Lemma impact_of_range (q n : nat) :
  (Z.of_nat q < 2 ^ 53)%Z -> (Z.of_nat n < 2 ^ 53)%Z ->
  is_percentage (impact_of q n).
Proof.
  intros Hq Hn. unfold impact_of, is_percentage. apply round_min_100.
  apply times_nonneg; [|reflexivity].
  apply times_nonneg; [|reflexivity].
  apply quotient_nonneg; [assumption| |apply or_default_pos].
  destruct n; simpl JS.or_default; [reflexivity|assumption].
Qed.

Lemma verb_score_of_range (sc wc : nat) :
  (Z.of_nat (sc + wc + 1) < 2 ^ 53)%Z ->
  is_percentage (verb_score_of sc wc).
Proof.
  intros H. unfold verb_score_of, is_percentage. apply round_min_100.
  apply times_nonneg; [|reflexivity].
  apply quotient_nonneg; lia.
Qed.

Lemma brevity_of_values (a : float) :
  brevity_of a = 40%float \/ brevity_of a = 80%float \/ brevity_of a = 100%float.
Proof.
  unfold brevity_of.
  destruct (JS.gt a 25); [auto|]. destruct (JS.gt a 15); auto.
Qed.

Lemma calculateStats_nonempty (text : string) :
  text <> "" ->
  calculateStats text
  = Some {| wordCount := List.length (words_of text);
            impactScore :=
              impact_of (List.length (quantifiers_of text))
                        (List.length (sentences_of text));
            verbScore :=
              verb_score_of (fst (verb_counts (words_of text)))
                            (snd (verb_counts (words_of text)));
            brevityScore := brevity_of (avgSentenceLength text) |}.
Proof.
  intros H. destruct text as [|c r]; [congruence|].
  unfold calculateStats.
  destruct (verb_counts (words_of (String c r))) as [sc wc]. reflexivity.
Qed.

Lemma calculateStats_Some (text : string) (st : Stats) :
  calculateStats text = Some st -> text <> "".
Proof. destruct text; simpl; [discriminate|discriminate]. Qed.

(** C4. Whenever statistics are computed, the impact score and the verb
    score are Numbers holding an integer from 0 to 100, the brevity score
    is 40, 80 or 100, and the word count is the number of words, a
    natural number.  The text is any string a JavaScript engine can hold
    (fewer than 2^53 code units). *)
Theorem scores_in_range (text : string) (st : Stats) :
  (Z.of_nat (String.length text) < 2 ^ 53)%Z ->
  calculateStats text = Some st ->
  is_percentage (impactScore st)
  /\ is_percentage (verbScore st)
  /\ (brevityScore st = 40%float \/ brevityScore st = 80%float
      \/ brevityScore st = 100%float)
  /\ wordCount st = List.length (words_of text)
  /\ (0 <= Z.of_nat (wordCount st))%Z.
Proof.
  intros Hlen Hst.
  rewrite (calculateStats_nonempty text (calculateStats_Some text st Hst)) in Hst.
  injection Hst as <-. cbn [impactScore verbScore brevityScore wordCount].
  pose proof (quantifiers_of_length text).
  pose proof (sentences_of_length text).
  pose proof (verb_counts_bound text).
  repeat split.
  - apply impact_of_range; lia.
  - apply verb_score_of_range; lia.
  - apply brevity_of_values.
  - lia.
Qed.

Lemma scores_in_range_witness :
  is_percentage 100%float /\ is_percentage 50%float.
Proof.
  assert (Hl : (Z.of_nat (String.length sample_resume) < 2 ^ 53)%Z)
    by (vm_compute; reflexivity).
  assert (Hs : calculateStats sample_resume
               = Some {| wordCount := 13; impactScore := 100%float;
                         verbScore := 50%float;
                         brevityScore := 80%float |})
    by (vm_compute; reflexivity).
  destruct (scores_in_range sample_resume _ Hl Hs) as (Hi & Hv & _).
  split; [exact Hi|exact Hv].
Defined.

(** ** The brevity step function *)

Lemma SFcompare_antisym (x y : spec_float) :
  SFcompare y x = option_map CompOpp (SFcompare x y).
Proof.
  destruct x as [[]|[]| |[] mx ex]; destruct y as [[]|[]| |[] my ey];
    simpl; try reflexivity;
    pose proof (Pos.compare_cont_antisym mx my Eq) as HP; simpl in HP;
    rewrite (Z.compare_antisym ex ey);
    destruct (ex ?= ey)%Z; simpl; try reflexivity;
    rewrite <- HP; destruct (Pos.compare_cont Eq mx my); reflexivity.
Qed.

(** On Numbers that are not NaN, [a > c] fails exactly when [a <= c]. *)
Lemma not_gt_is_le (a c : float) :
  nonneg_sf (Prim2SF a) = true -> nonneg_sf (Prim2SF c) = true ->
  (a <=? c)%float = negb (JS.gt a c).
Proof.
  intros Ha Hc. unfold JS.gt.
  rewrite FloatAxioms.leb_spec, FloatAxioms.ltb_spec.
  unfold SFleb, SFltb. rewrite (SFcompare_antisym (Prim2SF a) (Prim2SF c)).
  destruct (Prim2SF a) as [[]|[]| |[] ma ea]; try discriminate;
    destruct (Prim2SF c) as [[]|[]| |[] mc ec]; try discriminate;
    simpl; try reflexivity.
  destruct (ea ?= ec)%Z; simpl; try reflexivity.
  destruct (Pos.compare_cont Eq ma mc); reflexivity.
Qed.

Lemma avgSentenceLength_nonneg (text : string) :
  (Z.of_nat (String.length text) < 2 ^ 53)%Z -> text <> "" ->
  nonneg_sf (Prim2SF (avgSentenceLength text)) = true.
Proof.
  intros Hlen Hne. unfold avgSentenceLength, avgSentenceLength_of.
  pose proof (words_of_length text).
  pose proof (sentences_of_length text).
  assert (0 < String.length text) by (destruct text; simpl; [congruence|lia]).
  apply quotient_nonneg; [lia| |apply or_default_pos].
  pose proof (or_default_le (List.length (sentences_of text))
                (String.length text)). lia.
Qed.

(** Closes a goal from a false equation between Number literals, or a
    false comparison of them. *)
Ltac float_contra H :=
  exfalso; try apply (f_equal Prim2SF) in H; vm_compute in H; discriminate H.

Lemma or_default_max (n : nat) : JS.or_default n 1 = Nat.max n 1.
Proof. destruct n; simpl; [reflexivity|rewrite Nat.max_0_r; reflexivity]. Qed.

Lemma gt_25_gt_15 (a : float) :
  nonneg_sf (Prim2SF a) = true ->
  JS.gt a 25 = true -> JS.gt a 15 = true.
Proof.
  intros Ha. unfold JS.gt. rewrite !FloatAxioms.ltb_spec.
  change (Prim2SF 25) with (S754_finite false 7036874417766400 (-48)).
  change (Prim2SF 15) with (S754_finite false 8444249301319680 (-49)).
  destruct (Prim2SF a) as [[]|[]| |[] ma ea]; try discriminate;
    try (intros _; reflexivity).
  unfold SFltb, SFcompare.
  destruct (Z.compare_spec (-48) ea) as [E|E|E]; try discriminate.
  - subst ea. intros _. reflexivity.
  - intros _.
    destruct (Z.compare_spec (-49) ea) as [E'|E'|E']; try reflexivity; lia.
Qed.

(** C5. The brevity score is the step function of the average sentence
    length [words / max(sentences, 1)]: 40 when the average is above 25,
    100 when it is above 15 and at most 25, and 80 when it is at most 15;
    exactly one of the three cases applies.  At the two thresholds: an
    average of exactly 25 scores 100 and an average of exactly 15 scores
    80. *)
Theorem brevity_step_function (text : string) (st : Stats) :
  (Z.of_nat (String.length text) < 2 ^ 53)%Z ->
  calculateStats text = Some st ->
  avgSentenceLength text
  = (JS.num (wordCount st)
     / JS.num (Nat.max (List.length (sentences_of text)) 1))%float
  /\ (((25 <? avgSentenceLength text)%float = true
       /\ brevityScore st = 40%float)
      \/ ((15 <? avgSentenceLength text)%float = true
          /\ (avgSentenceLength text <=? 25)%float = true
          /\ brevityScore st = 100%float)
      \/ ((avgSentenceLength text <=? 15)%float = true
          /\ brevityScore st = 80%float))
  /\ (brevityScore st = 40%float
      <-> (25 <? avgSentenceLength text)%float = true)
  /\ (brevityScore st = 80%float
      <-> (avgSentenceLength text <=? 15)%float = true)
  /\ (avgSentenceLength text = 25%float -> brevityScore st = 100%float)
  /\ (avgSentenceLength text = 15%float -> brevityScore st = 80%float).
Proof.
  intros Hlen Hst.
  pose proof (calculateStats_Some text st Hst) as Hne.
  rewrite (calculateStats_nonempty text Hne) in Hst.
  injection Hst as <-. cbn [brevityScore wordCount].
  split.
  { unfold avgSentenceLength, avgSentenceLength_of.
    rewrite or_default_max. reflexivity. }
  pose proof (avgSentenceLength_nonneg text Hlen Hne) as Ha.
  pose proof (not_gt_is_le _ 25 Ha eq_refl) as H25.
  pose proof (not_gt_is_le _ 15 Ha eq_refl) as H15.
  pose proof (gt_25_gt_15 _ Ha) as Hmono.
  unfold brevity_of. unfold JS.gt in *.
  remember (avgSentenceLength text) as a eqn:Ea. clear Ea Ha.
  destruct (25 <? a)%float eqn:E25.
  - rewrite (Hmono eq_refl) in H15. simpl in H15, H25.
    split; [left; split; reflexivity|].
    split; [split; reflexivity|].
    split; [split; intros H; [float_contra H|congruence]|].
    split; intros H; subst a; float_contra E25.
  - destruct (15 <? a)%float eqn:E15; simpl in H15, H25.
    + split; [right; left; repeat split; assumption|].
      split; [split; intros H; [float_contra H|discriminate]|].
      split; [split; intros H; [float_contra H|congruence]|].
      split; intros H; [reflexivity|subst a; float_contra E15].
    + split; [right; right; split; [assumption|reflexivity]|].
      split; [split; intros H; [float_contra H|discriminate]|].
      split; [split; intros H; [assumption|reflexivity]|].
      split; intros H; [subst a; float_contra E15|reflexivity].
Qed.

Lemma brevity_step_function_witness :
  avgSentenceLength (words_text 25) = 25%float
  /\ brevity_of (avgSentenceLength (words_text 25)) = 100%float.
Proof.
  assert (Hl : (Z.of_nat (String.length (words_text 25)) < 2 ^ 53)%Z)
    by (vm_compute; reflexivity).
  assert (Ha : avgSentenceLength (words_text 25) = 25%float)
    by (vm_compute; reflexivity).
  assert (Hs : calculateStats (words_text 25)
               = Some {| wordCount := 25; impactScore := 0%float;
                         verbScore := 0%float;
                         brevityScore :=
                           brevity_of (avgSentenceLength (words_text 25)) |})
    by (vm_compute; reflexivity).
  destruct (brevity_step_function _ _ Hl Hs) as (_ & _ & _ & _ & H25 & _).
  split; [exact Ha|exact (H25 Ha)].
Defined.

(** ** Texts without a sentence *)

Lemma is_terminal_cases (c : ascii) :
  is_terminal c = true -> c = "."%char \/ c = "!"%char \/ c = "?"%char.
Proof.
  destruct c as [[] [] [] [] [] [] [] []]; vm_compute; intros H;
    try discriminate H; auto.
Qed.

Lemma append_snoc (cur r : string) (c : ascii) :
  ((cur ++ String c "") ++ r)%string = (cur ++ String c r)%string.
Proof. induction cur; simpl; congruence. Qed.

(** Without a separator in it the string is one piece. *)
Lemma split_go_no_sep (sep : ascii -> bool) (s : string) :
  forall cur b,
    all_chars (fun c => negb (sep c)) s = true ->
    JS.split_go sep s cur b = [(cur ++ s)%string].
Proof.
  induction s as [|c r IH]; intros cur b H; simpl in *.
  - f_equal. induction cur; simpl; congruence.
  - apply andb_true_iff in H. destruct H as [Hc Hr].
    destruct (sep c); [discriminate|].
    rewrite (IH _ false Hr), append_snoc. reflexivity.
Qed.

(** When no piece survives the filter, the string is made of separators
    only. *)
Lemma split_go_all_empty (sep : ascii -> bool) (s : string) :
  forall cur b,
    filter (fun w => 0 <? String.length w) (JS.split_go sep s cur b) = [] ->
    all_chars sep s = true /\ (b = false -> cur = "").
Proof.
  induction s as [|c r IH]; intros cur b H; simpl in *.
  - split; [reflexivity|]. intros _.
    destruct cur; [reflexivity|discriminate].
  - destruct (sep c) eqn:Hc.
    + destruct b.
      * destruct (IH _ _ H) as [Hr _]. split; [exact Hr|discriminate].
      * simpl in H. destruct cur; [|discriminate]. simpl in H.
        destruct (IH _ _ H) as [Hr _]. split; [exact Hr|reflexivity].
    + destruct (IH _ _ H) as [_ Hcur]. specialize (Hcur eq_refl).
      destruct cur; discriminate.
Qed.

Lemma all_chars_impl (p q : ascii -> bool) (s : string) :
  (forall c, p c = true -> q c = true) ->
  all_chars p s = true -> all_chars q s = true.
Proof.
  intros Hpq. induction s as [|c r IH]; simpl; [reflexivity|].
  intros H. apply andb_true_iff in H. destruct H as [Hc Hr].
  rewrite (Hpq c Hc), (IH Hr). reflexivity.
Qed.

Lemma terminal_not_space (c : ascii) :
  is_terminal c = true -> negb (JS.is_space c) = true.
Proof.
  intros H. destruct (is_terminal_cases c H) as [->|[->| ->]]; reflexivity.
Qed.

Lemma quantifier_at_terminal (c : ascii) (r : string) :
  is_terminal c = true -> quantifier_at (String c r) = None.
Proof.
  intros H. destruct (is_terminal_cases c H) as [->|[->| ->]]; reflexivity.
Qed.

Lemma match_from_terminal (s : string) :
  all_chars is_terminal s = true -> forall skip, match_from s skip = [].
Proof.
  induction s as [|c r IH]; intros H skip; [reflexivity|].
  simpl in H. apply andb_true_iff in H. destruct H as [Hc Hr].
  cbn [match_from]. destruct skip; [|apply IH; exact Hr].
  rewrite (quantifier_at_terminal c r Hc). apply IH; exact Hr.
Qed.

Lemma count_verb_terminal (c : ascii) (r : string) :
  is_terminal c = true -> count_verb (0, 0) (String c r) = (0, 0).
Proof.
  intros H. destruct (is_terminal_cases c H) as [->|[->| ->]]; reflexivity.
Qed.

(** C6. When the text yields no sentence, both divisions are by 1 and
    not by the zero count: the statistics are computed, with one word, an
    impact score of 0, a verb score of 0 and a brevity score of 80, all
    within their ranges. *)
Theorem no_sentence_no_division_by_zero (text : string) :
  text <> "" ->
  sentences_of text = [] ->
  JS.or_default (List.length (sentences_of text)) 1 = 1
  /\ avgSentenceLength text = (JS.num 1 / JS.num 1)%float
  /\ calculateStats text = Some no_sentence_stats
  /\ is_percentage (impactScore no_sentence_stats)
  /\ is_percentage (verbScore no_sentence_stats)
  /\ brevityScore no_sentence_stats = 80%float.
Proof.
  intros Hne Hs.
  destruct (split_go_all_empty is_terminal text "" false Hs) as [Hall _].
  assert (Hw : words_of text = [text]).
  { unfold words_of, JS.split.
    rewrite (split_go_no_sep JS.is_space text "" false
               (all_chars_impl _ _ text terminal_not_space Hall)).
    simpl. destruct text; [congruence|reflexivity]. }
  assert (Hq : quantifiers_of text = []).
  { unfold quantifiers_of, match_quantifiers.
    rewrite (match_from_terminal text Hall 0). reflexivity. }
  assert (Hv : verb_counts (words_of text) = (0, 0)).
  { rewrite Hw. unfold verb_counts. cbn [fold_left].
    destruct text as [|c r]; [congruence|].
    simpl in Hall. apply andb_true_iff in Hall.
    apply count_verb_terminal. apply Hall. }
  split; [rewrite Hs; reflexivity|].
  split; [unfold avgSentenceLength; rewrite Hs, Hw; reflexivity|].
  split.
  { rewrite (calculateStats_nonempty text Hne).
    unfold avgSentenceLength. rewrite Hs, Hq, Hv, Hw. reflexivity. }
  split; [exists 0; split; [lia|reflexivity]|].
  split; [exists 0; split; [lia|reflexivity]|reflexivity].
Qed.

Lemma no_sentence_no_division_by_zero_witness :
  sentences_of "?!..." = []
  /\ calculateStats "?!..." = Some no_sentence_stats.
Proof.
  assert (Hne : "?!..." <> "") by discriminate.
  assert (Hs : sentences_of "?!..." = []) by reflexivity.
  split; [exact Hs|].
  apply (no_sentence_no_division_by_zero "?!..." Hne Hs).
Defined.

(** ** Counting verbs *)

Lemma count_verb_step (sc wc : nat) (tok : string) :
  count_verb (sc, wc) tok
  = ((if strongb tok then S sc else sc), (if weakb tok then S wc else wc)).
Proof. reflexivity. Qed.

Lemma fold_count_verb (words : list string) :
  forall sc wc,
    fold_left count_verb words (sc, wc)
    = (sc + List.length (filter strongb words),
       wc + List.length (filter weakb words)).
Proof.
  induction words as [|w l IH]; intros sc wc; cbn [fold_left].
  - simpl. f_equal; lia.
  - rewrite count_verb_step, IH. simpl filter.
    destruct (strongb w); destruct (weakb w); simpl; f_equal; lia.
Qed.

Lemma in_dec_includes (l : list string) (x : string) :
  (if in_dec string_dec x l then true else false) = JS.includes l x.
Proof.
  destruct (in_dec string_dec x l) as [H|H];
    destruct (JS.includes l x) eqn:E; try reflexivity.
  - apply includes_In in H. congruence.
  - apply includes_In in E. contradiction.
Qed.

Lemma whole_token_count_strong (words : list string) :
  whole_token_count strongVerbs words = List.length (filter strongb words).
Proof.
  unfold whole_token_count. f_equal. apply filter_ext.
  intros tok. apply in_dec_includes.
Qed.

Lemma whole_token_count_weak (words : list string) :
  whole_token_count weakVerbs words = List.length (filter weakb words).
Proof.
  unfold whole_token_count. f_equal. apply filter_ext.
  intros tok. apply in_dec_includes.
Qed.

Lemma verb_counts_whole_tokens (words : list string) :
  verb_counts words
  = (whole_token_count strongVerbs words, whole_token_count weakVerbs words).
Proof.
  rewrite whole_token_count_strong, whole_token_count_weak.
  apply (fold_count_verb words 0 0).
Qed.

(** Taking one token out of the list of words takes one from a count
    exactly when the token is classified. *)
Lemma verb_counts_token (pre post : list string) (tok : string) :
  verb_counts (pre ++ tok :: post)
  = ((if strongb tok then S (fst (verb_counts (pre ++ post)))
      else fst (verb_counts (pre ++ post))),
     (if weakb tok then S (snd (verb_counts (pre ++ post)))
      else snd (verb_counts (pre ++ post)))).
Proof.
  unfold verb_counts. rewrite !fold_count_verb. cbn [fst snd].
  rewrite !filter_app. cbn [filter]. rewrite !length_app.
  destruct (strongb tok); destruct (weakb tok); cbn [List.length];
    f_equal; lia.
Qed.

Lemma filter_after_map {A B : Type} (f : B -> bool) (g : A -> B)
      (l : list A) :
  List.length (filter (fun x => f (g x)) l)
  = List.length (filter f (map g l)).
Proof.
  induction l as [|x l IH]; [reflexivity|]. cbn [map filter].
  destruct (f (g x)); cbn [List.length]; rewrite IH; reflexivity.
Qed.

(** The counts depend on the words through their lowercased forms
    only. *)
Lemma verb_counts_by_lowercase (ws ws' : list string) :
  map JS.toLowerCase ws = map JS.toLowerCase ws' ->
  verb_counts ws = verb_counts ws'.
Proof.
  intros H. unfold verb_counts. rewrite !fold_count_verb.
  unfold strongb, weakb.
  rewrite !(filter_after_map (JS.includes strongVerbs) JS.toLowerCase).
  rewrite !(filter_after_map (JS.includes weakVerbs) JS.toLowerCase).
  rewrite H. reflexivity.
Qed.

(** C7. In the statistics of a text, the strong (weak) count is the
    number of words of the text, as split at white space, whose lowercased
    form is equal as a whole to a verb of the strong (weak) list, and the
    verb score is computed from these two numbers.  Each word of the text
    adds one to a count exactly when its lowercased form is in the list.
    Two texts whose words are equal once lowercased get the same verb
    score.  A word that merely contains or extends a listed verb is not
    counted: next to one strong verb, [helped] in any case brings the score
    to 33, while [helping], [helped,] and [unhelped] leave it at 50. *)
Theorem verbs_match_whole_lowercased_tokens (text : string) (st : Stats) :
  calculateStats text = Some st ->
  verb_counts (words_of text)
  = (whole_token_count strongVerbs (words_of text),
     whole_token_count weakVerbs (words_of text))
  /\ verbScore st
     = verb_score_of (whole_token_count strongVerbs (words_of text))
                     (whole_token_count weakVerbs (words_of text))
  /\ (forall pre tok post,
        words_of text = pre ++ tok :: post ->
        (is_strong tok ->
         fst (verb_counts (words_of text))
         = S (fst (verb_counts (pre ++ post))))
        /\ (~ is_strong tok ->
            fst (verb_counts (words_of text))
            = fst (verb_counts (pre ++ post)))
        /\ (is_weak tok ->
            snd (verb_counts (words_of text))
            = S (snd (verb_counts (pre ++ post))))
        /\ (~ is_weak tok ->
            snd (verb_counts (words_of text))
            = snd (verb_counts (pre ++ post))))
  /\ (forall text' st',
        calculateStats text' = Some st' ->
        map JS.toLowerCase (words_of text')
        = map JS.toLowerCase (words_of text) ->
        verbScore st' = verbScore st)
  /\ option_map verbScore (calculateStats "developed helped")
     = Some 33%float
  /\ option_map verbScore (calculateStats "DEVELOPED Helped")
     = Some 33%float
  /\ option_map verbScore (calculateStats "developed helping")
     = Some 50%float
  /\ option_map verbScore (calculateStats "developed helped,")
     = Some 50%float
  /\ option_map verbScore (calculateStats "developed unhelped")
     = Some 50%float
  /\ option_map verbScore (calculateStats "developing helped")
     = Some 0%float.
Proof.
  intros Hst.
  pose proof (calculateStats_nonempty text (calculateStats_Some text st Hst))
    as E.
  rewrite E in Hst. injection Hst as <-. cbn [verbScore].
  split; [apply verb_counts_whole_tokens|].
  split.
  { rewrite (verb_counts_whole_tokens (words_of text)). reflexivity. }
  split.
  { intros pre tok post Hw. rewrite Hw, verb_counts_token. cbn [fst snd].
    pose proof (includes_In strongVerbs (JS.toLowerCase tok)) as Hs.
    pose proof (includes_In weakVerbs (JS.toLowerCase tok)) as Hk.
    fold (strongb tok) in Hs. fold (weakb tok) in Hk.
    fold (is_strong tok) in Hs. fold (is_weak tok) in Hk.
    destruct (strongb tok); destruct (weakb tok);
      (split; [intros H; try reflexivity; apply Hs in H; discriminate H|]);
      (split; [intros H; try reflexivity; exfalso; apply H, Hs; reflexivity|]);
      (split; [intros H; try reflexivity; apply Hk in H; discriminate H|]);
      intros H; try reflexivity; exfalso; apply H, Hk; reflexivity. }
  split.
  { intros text' st' Hst' Hlow.
    rewrite (calculateStats_nonempty text'
               (calculateStats_Some text' st' Hst')) in Hst'.
    injection Hst' as <-. cbn [verbScore].
    rewrite (verb_counts_by_lowercase _ _ Hlow). reflexivity. }
  repeat split; vm_compute; reflexivity.
Qed.

Lemma verbs_match_whole_lowercased_tokens_witness :
  verb_counts (words_of "Developed the API. Was helping, then Helped.")
  = (1, 0)
  /\ verb_counts (words_of "Developed APIs and HELPED the team") = (1, 1).
Proof.
  split.
  - destruct (verbs_match_whole_lowercased_tokens
                "Developed the API. Was helping, then Helped."
                {| wordCount := 7; impactScore := 0%float;
                   verbScore := 50%float; brevityScore := 80%float |})
      as (H & _); [vm_compute; reflexivity|].
    rewrite H. vm_compute. reflexivity.
  - destruct (verbs_match_whole_lowercased_tokens
                "Developed APIs and HELPED the team"
                {| wordCount := 6; impactScore := 0%float;
                   verbScore := 33%float; brevityScore := 80%float |})
      as (H & _); [vm_compute; reflexivity|].
    rewrite H. vm_compute. reflexivity.
Defined.

(** ** Fence stripping *)

#[local] Arguments Ascii.eqb : simpl never.

Lemma space_not_tick (c : ascii) :
  JS.is_space c = true -> Ascii.eqb "`" c = false.
Proof.
  destruct c as [[] [] [] [] [] [] [] []]; vm_compute; intros H;
    try reflexivity; discriminate H.
Qed.

Lemma starts_with_open_fence (s : string) :
  starts_with fence_open s = true -> starts_with fence s = true.
Proof.
  destruct s as [|c1 [|c2 [|c3 r]]]; simpl; try discriminate;
    try (rewrite !andb_false_r; discriminate).
  intros H. repeat (apply andb_true_iff in H; destruct H as [? H]).
  repeat (apply andb_true_iff; split); auto.
Qed.

Lemma fence_at_None (s : string) :
  starts_with fence s = false -> fence_at s = None.
Proof.
  intros H. unfold fence_at. rewrite H.
  destruct (starts_with fence_open s) eqn:E; [|reflexivity].
  apply starts_with_open_fence in E. congruence.
Qed.

Lemma contains_fence_cons (c : ascii) (r : string) :
  contains_fence (String c r) = false ->
  starts_with fence (String c r) = false /\ contains_fence r = false.
Proof.
  cbn [contains_fence]. intros H. apply orb_false_iff in H. exact H.
Qed.

Lemma strip_fences_none (p : string) :
  contains_fence p = false -> strip_fences p = p.
Proof.
  unfold strip_fences. induction p as [|c r IH]; intros H; [reflexivity|].
  apply contains_fence_cons in H. destruct H as [H1 H2].
  cbn [replace_from]. rewrite (fence_at_None _ H1), (IH H2). reflexivity.
Qed.

Lemma strip_fences_open (x : string) :
  strip_fences (fence_open ++ x) = strip_fences x.
Proof. reflexivity. Qed.

(** A closing marker after a string without markers is removed, and the
    string is what is left, even if it ends in one or two backticks. *)
Lemma strip_fences_close (q : string) :
  contains_fence q = false -> strip_fences (q ++ fence) = q.
Proof.
  unfold strip_fences. induction q as [|c r IH]; intros H; [reflexivity|].
  apply contains_fence_cons in H. destruct H as [H1 H2].
  specialize (IH H2).
  change ((String c r ++ fence)%string) with (String c (r ++ fence)).
  cbn [replace_from].
  destruct (starts_with fence (String c (r ++ fence))) eqn:F.
  - destruct r as [|c2 [|c3 r3]].
    + simpl in F. rewrite !andb_true_r in F.
      apply Ascii.eqb_eq in F. subst c. reflexivity.
    + simpl in F. rewrite !andb_true_r in F.
      apply andb_true_iff in F. destruct F as [F1 F2].
      apply Ascii.eqb_eq in F1, F2. subst c c2. reflexivity.
    + simpl in F, H1. congruence.
  - rewrite (fence_at_None _ F), IH. reflexivity.
Qed.

Lemma contains_fence_spaces (b : string) :
  JS.all_space b = true -> contains_fence b = false.
Proof.
  induction b as [|c r IH]; intros H; [reflexivity|].
  simpl in H. apply andb_true_iff in H. destruct H as [Hc Hr].
  cbn [contains_fence starts_with fence]. 
  rewrite (space_not_tick c Hc), (IH Hr). reflexivity.
Qed.

Lemma contains_fence_app_spaces (p b : string) :
  contains_fence p = false -> JS.all_space b = true ->
  contains_fence (p ++ b) = false.
Proof.
  intros Hp Hb. induction p as [|c r IH].
  - apply contains_fence_spaces. exact Hb.
  - apply contains_fence_cons in Hp. destruct Hp as [H1 H2].
    change ((String c r ++ b)%string) with (String c (r ++ b)).
    cbn [contains_fence]. rewrite (IH H2), orb_false_r.
    destruct r as [|c2 [|c3 r3]].
    + destruct b as [|b1 b']; [exact H1|].
      simpl in Hb. apply andb_true_iff in Hb. destruct Hb as [Hb1 _].
      simpl. rewrite (space_not_tick b1 Hb1), andb_false_r. reflexivity.
    + destruct b as [|b1 b']; [exact H1|].
      simpl in Hb. apply andb_true_iff in Hb. destruct Hb as [Hb1 _].
      simpl. rewrite (space_not_tick b1 Hb1), !andb_false_r. reflexivity.
    + exact H1.
Qed.

Lemma contains_fence_spaces_app (a x : string) :
  JS.all_space a = true -> contains_fence x = false ->
  contains_fence (a ++ x) = false.
Proof.
  intros Ha Hx. induction a as [|c r IH]; [exact Hx|].
  simpl in Ha. apply andb_true_iff in Ha. destruct Ha as [Hc Hr].
  change ((String c r ++ x)%string) with (String c (r ++ x)).
  cbn [contains_fence starts_with fence].
  rewrite (space_not_tick c Hc), (IH Hr). reflexivity.
Qed.

(** ** Trimming *)

Lemma trimStart_spaces (b : string) :
  JS.all_space b = true -> JS.trimStart b = "".
Proof.
  induction b as [|c r IH]; intros H; [reflexivity|].
  simpl in H. apply andb_true_iff in H. destruct H as [Hc Hr].
  simpl. rewrite Hc. apply IH. exact Hr.
Qed.

Lemma all_space_app (x b : string) :
  JS.all_space b = true -> JS.all_space (x ++ b) = JS.all_space x.
Proof.
  intros Hb. induction x as [|c r IH]; simpl; [exact Hb|].
  rewrite IH. reflexivity.
Qed.

Lemma trimEnd_app_spaces (x b : string) :
  JS.all_space b = true -> JS.trimEnd (x ++ b) = JS.trimEnd x.
Proof.
  intros Hb. induction x as [|c r IH].
  - simpl. destruct b as [|c r]; [reflexivity|].
    cbn [JS.trimEnd]. rewrite Hb. reflexivity.
  - change ((String c r ++ b)%string) with (String c (r ++ b)).
    cbn [JS.trimEnd].
    change (JS.all_space (String c (r ++ b)))
      with (JS.is_space c && JS.all_space (r ++ b)).
    rewrite (all_space_app r b Hb), IH. reflexivity.
Qed.

Lemma trim_app_spaces (p b : string) :
  JS.all_space b = true -> JS.trim (p ++ b) = JS.trim p.
Proof.
  intros Hb. unfold JS.trim. induction p as [|c r IH].
  - simpl. rewrite (trimStart_spaces b Hb). reflexivity.
  - change ((String c r ++ b)%string) with (String c (r ++ b)).
    cbn [JS.trimStart]. destruct (JS.is_space c); [exact IH|].
    apply (trimEnd_app_spaces (String c r) b Hb).
Qed.

Lemma trim_spaces_app (a x : string) :
  JS.all_space a = true -> JS.trim (a ++ x) = JS.trim x.
Proof.
  intros Ha. unfold JS.trim. induction a as [|c r IH]; [reflexivity|].
  simpl in Ha. apply andb_true_iff in Ha. destruct Ha as [Hc Hr].
  change ((String c r ++ x)%string) with (String c (r ++ x)).
  cbn [JS.trimStart]. rewrite Hc. apply IH. exact Hr.
Qed.

Lemma append_assoc3 (a p b f : string) :
  (a ++ p ++ b ++ f)%string = ((a ++ p ++ b) ++ f)%string.
Proof.
  induction a as [|c r IH]; simpl.
  - induction p as [|c r IH]; simpl; [reflexivity|]. rewrite IH. reflexivity.
  - rewrite IH. reflexivity.
Qed.

Lemma jsonString_fenced (a p b : string) :
  JS.all_space a = true -> JS.all_space b = true ->
  contains_fence p = false ->
  jsonString (fenced a p b) = JS.trim p.
Proof.
  intros Ha Hb Hp. unfold jsonString, fenced.
  rewrite strip_fences_open, append_assoc3, strip_fences_close.
  - rewrite (trim_spaces_app a _ Ha). apply trim_app_spaces. exact Hb.
  - apply contains_fence_spaces_app; [exact Ha|].
    apply contains_fence_app_spaces; assumption.
Qed.

(** C8. For a payload without fence markers, cleaning and parsing the
    payload placed between [```json] and [```], with any white space
    around it, gives what cleaning and parsing the bare payload gives:
    both parse the trimmed payload.  This holds whatever [JSON.parse]
    does; when parsing the payload does not depend on the white space
    around it, as for a JSON text, it is also what parsing the payload
    directly gives. *)
Theorem fence_stripping_is_transparent
        (rt : Runtime) (a payload b : string) :
  JS.all_space a = true -> JS.all_space b = true ->
  contains_fence payload = false ->
  jsonString (fenced a payload b) = jsonString payload
  /\ jsonString payload = JS.trim payload
  /\ clean_and_parse rt (fenced a payload b) = clean_and_parse rt payload
  /\ (JSON_parse rt (JS.trim payload) = JSON_parse rt payload ->
      clean_and_parse rt (fenced a payload b) = JSON_parse rt payload).
Proof.
  intros Ha Hb Hp.
  assert (H1 : jsonString (fenced a payload b) = JS.trim payload)
    by (apply jsonString_fenced; assumption).
  assert (H2 : jsonString payload = JS.trim payload)
    by (unfold jsonString; rewrite (strip_fences_none payload Hp); reflexivity).
  unfold clean_and_parse. rewrite H1, H2.
  repeat split; auto.
Qed.

Lemma fence_stripping_is_transparent_witness :
  clean_and_parse answers_empty_object (fenced nl "{}" nl)
  = Some (VObject []).
Proof.
  destruct (fence_stripping_is_transparent answers_empty_object nl "{}" nl
              eq_refl eq_refl eq_refl) as (_ & _ & _ & H).
  rewrite (H eq_refl). reflexivity.
Defined.

(** ** White space after terminal punctuation *)

Lemma split_go_app_sep (sep : ascii -> bool) (p : ascii) (a : string) :
  sep p = true ->
  forall cur b, exists l,
    forall r,
      JS.split_go sep (a ++ String p r) cur b
      = l ++ JS.split_go sep r "" true.
Proof.
  intros Hp. induction a as [|c a' IH]; intros cur b.
  - destruct b.
    + exists []. intros r. simpl. rewrite Hp. reflexivity.
    + exists [cur]. intros r. simpl. rewrite Hp. reflexivity.
  - change ((String c a' ++ String p ?r)%string)
      with (String c (a' ++ String p r)).
    destruct (sep c) eqn:Hc.
    + destruct b.
      * destruct (IH "" true) as [l Hl]. exists l. intros r.
        change ((String c a' ++ String p r)%string)
          with (String c (a' ++ String p r)).
        cbn [JS.split_go]. rewrite Hc. apply Hl.
      * destruct (IH "" true) as [l Hl]. exists (cur :: l). intros r.
        change ((String c a' ++ String p r)%string)
          with (String c (a' ++ String p r)).
        cbn [JS.split_go]. rewrite Hc, Hl. reflexivity.
    + destruct (IH (cur ++ String c "")%string false) as [l Hl].
      exists l. intros r.
      change ((String c a' ++ String p r)%string)
        with (String c (a' ++ String p r)).
      cbn [JS.split_go]. rewrite Hc. apply Hl.
Qed.

Lemma space_not_terminal (c : ascii) :
  JS.is_space c = true -> negb (is_terminal c) = true.
Proof.
  destruct c as [[] [] [] [] [] [] [] []]; vm_compute; intros H;
    try reflexivity; discriminate H.
Qed.

Lemma all_space_all_chars (s : string) :
  JS.all_space s = all_chars JS.is_space s.
Proof. induction s; simpl; congruence. Qed.

Lemma sentences_of_app_space (t ws : string) (p : ascii) :
  is_terminal p = true -> ws <> "" -> JS.all_space ws = true ->
  sentences_of (t ++ String p ws) = sentences_of (t ++ String p "") ++ [ws].
Proof.
  intros Hp Hne Hws. unfold sentences_of, JS.split.
  destruct (split_go_app_sep is_terminal p t Hp "" false) as [l Hl].
  rewrite !Hl, !filter_app.
  rewrite all_space_all_chars in Hws.
  rewrite (split_go_no_sep is_terminal ws "" true
             (all_chars_impl _ _ ws space_not_terminal Hws)).
  simpl. destruct ws; [congruence|]. simpl. rewrite app_nil_r. reflexivity.
Qed.

Lemma split_go_spaces (sep : ascii -> bool) (ws : string) :
  all_chars sep ws = true ->
  forall cur b,
    (b = true -> cur = "") ->
    filter (fun w => 0 <? String.length w) (JS.split_go sep ws cur b)
    = filter (fun w => 0 <? String.length w) [cur].
Proof.
  induction ws as [|c r IH]; intros H cur b Hb; [reflexivity|].
  simpl in H. apply andb_true_iff in H. destruct H as [Hc Hr].
  cbn [JS.split_go]. rewrite Hc. destruct b.
  - rewrite (Hb eq_refl). apply (IH Hr "" true). reflexivity.
  - cbn [filter]. rewrite (IH Hr "" true (fun _ => eq_refl)). simpl.
    destruct (0 <? String.length cur); reflexivity.
Qed.

Lemma split_go_app_spaces (sep : ascii -> bool) (ws x : string) :
  all_chars sep ws = true ->
  forall cur b,
    (b = true -> cur = "") ->
    filter (fun w => 0 <? String.length w) (JS.split_go sep (x ++ ws) cur b)
    = filter (fun w => 0 <? String.length w) (JS.split_go sep x cur b).
Proof.
  intros Hws. induction x as [|c r IH]; intros cur b Hb.
  - simpl. apply split_go_spaces; assumption.
  - change ((String c r ++ ws)%string) with (String c (r ++ ws)).
    cbn [JS.split_go]. destruct (sep c).
    + destruct b.
      * apply IH. reflexivity.
      * cbn [filter]. rewrite (IH "" true (fun _ => eq_refl)). reflexivity.
    + apply IH. discriminate.
Qed.

Lemma append_assoc (a b c : string) :
  ((a ++ b) ++ c)%string = (a ++ b ++ c)%string.
Proof. induction a; simpl; congruence. Qed.

Lemma words_of_app_space (t ws : string) (p : ascii) :
  JS.all_space ws = true ->
  words_of (t ++ String p ws) = words_of (t ++ String p "").
Proof.
  intros Hws. rewrite all_space_all_chars in Hws. unfold words_of, JS.split.
  change (String p ws) with (String p "" ++ ws)%string.
  rewrite <- append_assoc.
  apply split_go_app_spaces; [exact Hws|discriminate].
Qed.

Lemma digits_len_app_stop (a r : string) (p : ascii) :
  JS.is_digit p = false ->
  digits_len (a ++ String p r) = digits_len (a ++ String p "").
Proof.
  intros Hp. induction a as [|c a' IH]; simpl.
  - rewrite Hp. reflexivity.
  - rewrite IH. reflexivity.
Qed.

Lemma char_at_digits_app_stop (q : ascii -> bool) (a r : string) (p : ascii) :
  JS.is_digit p = false ->
  char_at_is q (digits_len (a ++ String p r)) (a ++ String p r)
  = char_at_is q (digits_len (a ++ String p "")) (a ++ String p "").
Proof.
  intros Hp. unfold char_at_is. induction a as [|c a' IH]; simpl.
  - rewrite Hp. reflexivity.
  - destruct (JS.is_digit c); [exact IH|reflexivity].
Qed.

Lemma quantifier_at_app_stop (c : ascii) (a r : string) (p : ascii) :
  JS.is_digit p = false ->
  quantifier_at (String c a ++ String p r)
  = quantifier_at (String c a ++ String p "").
Proof.
  intros Hp.
  pose proof (char_at_digits_app_stop (is_char 37) (String c a) r p Hp) as H1.
  pose proof (char_at_digits_app_stop is_k (String c a) r p Hp) as H2.
  pose proof (char_at_digits_app_stop is_m (String c a) r p Hp) as H3.
  pose proof (char_at_digits_app_stop (is_char 43) (String c a) r p Hp) as H4.
  pose proof (digits_len_app_stop (String c a) r p Hp) as H5.
  pose proof (digits_len_app_stop a r p Hp) as H6.
  change ((String c a ++ String p r)%string)
    with (String c (a ++ String p r)) in *.
  change ((String c a ++ String p "")%string)
    with (String c (a ++ String p "")) in *.
  unfold quantifier_at. cbv beta iota zeta.
  rewrite H1, H2, H3, H4, H5, H6. reflexivity.
Qed.

Lemma quantifier_at_inert (c : ascii) (r : string) :
  inert c = true -> quantifier_at (String c r) = None.
Proof.
  unfold inert. intros H. apply andb_true_iff in H. destruct H as [Hd Hc].
  apply negb_true_iff in Hd, Hc.
  unfold quantifier_at. simpl. rewrite Hd, Hc. reflexivity.
Qed.

Lemma match_from_inert (s : string) :
  all_chars inert s = true -> forall skip, match_from s skip = [].
Proof.
  induction s as [|c r IH]; intros H skip; [reflexivity|].
  simpl in H. apply andb_true_iff in H. destruct H as [Hc Hr].
  cbn [match_from]. destruct skip; [|apply IH; exact Hr].
  rewrite (quantifier_at_inert c r Hc). apply IH; exact Hr.
Qed.

Lemma terminal_inert (c : ascii) : is_terminal c = true -> inert c = true.
Proof.
  intros H. destruct (is_terminal_cases c H) as [->|[->| ->]]; reflexivity.
Qed.

Lemma space_inert (c : ascii) : JS.is_space c = true -> inert c = true.
Proof.
  destruct c as [[] [] [] [] [] [] [] []]; vm_compute; intros H;
    try reflexivity; discriminate H.
Qed.

Lemma match_from_app_space (t ws : string) (p : ascii) :
  is_terminal p = true -> JS.all_space ws = true ->
  forall skip,
    List.length (match_from (t ++ String p ws) skip)
    = List.length (match_from (t ++ String p "") skip).
Proof.
  intros Hp Hws. rewrite all_space_all_chars in Hws.
  assert (Hd : JS.is_digit p = false).
  { destruct (is_terminal_cases p Hp) as [->|[->| ->]]; reflexivity. }
  induction t as [|c t' IH]; intros skip.
  - simpl app. rewrite !match_from_inert; [reflexivity| |].
    + simpl. rewrite (terminal_inert p Hp). reflexivity.
    + simpl. rewrite (terminal_inert p Hp). simpl.
      apply (all_chars_impl _ _ ws space_inert Hws).
  - pose proof (quantifier_at_app_stop c t' ws p Hd) as Hq.
    change ((String c t' ++ String p ?x)%string)
      with (String c (t' ++ String p x)) in *.
    cbn [match_from]. destruct skip as [|k]; [|apply IH].
    rewrite Hq.
    destruct (quantifier_at (String c (t' ++ String p ""))) as [n|].
    + cbn [List.length]. rewrite IH. reflexivity.
    + apply IH.
Qed.

Lemma quantifiers_of_count (text : string) :
  List.length (quantifiers_of text) = List.length (match_from text 0).
Proof.
  unfold quantifiers_of, match_quantifiers.
  destruct (match_from text 0); reflexivity.
Qed.

Lemma split_go_piece (sep : ascii -> bool) (q : ascii) (ws u : string) :
  sep q = true -> all_chars (fun c => negb (sep c)) ws = true ->
  forall cur,
    JS.split_go sep (ws ++ String q u) cur false
    = (cur ++ ws)%string :: JS.split_go sep u "" true.
Proof.
  intros Hq. induction ws as [|c r IH]; intros H cur.
  - simpl. rewrite Hq. f_equal. induction cur; simpl; congruence.
  - simpl in H. apply andb_true_iff in H. destruct H as [Hc Hr].
    apply negb_true_iff in Hc.
    change ((String c r ++ String q u)%string)
      with (String c (r ++ String q u)).
    cbn [JS.split_go]. rewrite Hc, (IH Hr), append_snoc. reflexivity.
Qed.

(** White space between two terminal marks is a sentence of its own. *)
Lemma sentences_of_inner_space (t ws u : string) (p q : ascii) :
  is_terminal p = true -> is_terminal q = true ->
  ws <> "" -> JS.all_space ws = true ->
  exists before after,
    sentences_of (t ++ String p (ws ++ String q u))
    = before ++ [ws] ++ after
    /\ sentences_of (t ++ String p (String q u)) = before ++ after.
Proof.
  intros Hp Hq Hne Hws. unfold sentences_of, JS.split.
  destruct (split_go_app_sep is_terminal p t Hp "" false) as [l Hl].
  exists (filter (fun s => 0 <? String.length s) l).
  exists (filter (fun s => 0 <? String.length s)
            (JS.split_go is_terminal u "" true)).
  rewrite !Hl, !filter_app. rewrite all_space_all_chars in Hws.
  destruct ws as [|c r]; [congruence|].
  simpl in Hws. apply andb_true_iff in Hws. destruct Hws as [Hc Hr].
  split.
  - change ((String c r ++ String q u)%string)
      with (String c (r ++ String q u)).
    cbn [JS.split_go].
    pose proof (space_not_terminal c Hc) as Hc'. apply negb_true_iff in Hc'.
    rewrite Hc'.
    rewrite (split_go_piece is_terminal q r u Hq
               (all_chars_impl _ _ r space_not_terminal Hr)).
    reflexivity.
  - cbn [JS.split_go]. rewrite Hq. reflexivity.
Qed.

Lemma app_terminal_nonempty (t r : string) (p : ascii) :
  (t ++ String p r)%string <> "".
Proof. destruct t; discriminate. Qed.

Lemma pos_of_nat_Z (m : nat) : 0 < m -> Z.pos (Pos.of_nat m) = Z.of_nat m.
Proof.
  intros H. rewrite <- positive_nat_Z, Nat2Pos.id by lia. reflexivity.
Qed.

(** Dividing by one more sentence: the exact quotient is not raised, and
    it is lowered exactly when there was a sentence and something to
    divide. *)
Lemma exact_quotient_one_more (k n : nat) :
  QArith_base.Qle (exact_quotient k (S n))
                  (exact_quotient k (JS.or_default n 1))
  /\ (QArith_base.Qlt (exact_quotient k (S n))
                      (exact_quotient k (JS.or_default n 1))
      <-> 0 < k /\ 0 < n).
Proof.
  unfold QArith_base.Qle, QArith_base.Qlt, exact_quotient.
  cbn [QArith_base.Qnum QArith_base.Qden].
  rewrite !pos_of_nat_Z by (try apply or_default_pos; lia).
  rewrite or_default_max. split; [nia|]. split; intros H; nia.
Qed.

Lemma blank_lowers_ratios_refuted : ~ blank_lowers_ratios "" " " ".".
Proof.
  intros (_ & H & _). vm_compute in H. discriminate H.
Qed.

(** The requirement as the spec words it: white space after a terminal
    mark raises the sentence count and thereby lowers the impact ratio
    and the average sentence length.  On the text made of a full stop,
    the blank raises the sentence count from 0 to 1 and both ratios stay
    as they are; on [Cut costs.] the impact ratio is 0 with and without
    the blank; and a blank between the two marks of [One..Two] raises the
    average sentence length. *)
Lemma whitespace_need_not_lower_the_ratios :
  ~ (forall (t ws : string) (p : ascii),
       is_terminal p = true -> ws <> "" -> JS.all_space ws = true ->
       blank_lowers_ratios t ws p)
  /\ (List.length (sentences_of ".") = 0
      /\ List.length (sentences_of ". ") = 1
      /\ impact_ratio ". " = impact_ratio "."
      /\ avgSentenceLength ". " = avgSentenceLength "."
      /\ calculateStats ". " = calculateStats ".")
  /\ (List.length (sentences_of "Cut costs.") = 1
      /\ List.length (sentences_of "Cut costs. ") = 2
      /\ impact_ratio "Cut costs. " = impact_ratio "Cut costs."
      /\ option_map impactScore (calculateStats "Cut costs. ")
         = option_map impactScore (calculateStats "Cut costs."))
  /\ (sentences_of "One..Two" = ["One"; "Two"]
      /\ sentences_of "One. .Two" = ["One"; " "; "Two"]
      /\ (avgSentenceLength "One..Two"
          <? avgSentenceLength "One. .Two")%float = true).
Proof.
  split.
  { intros H. apply blank_lowers_ratios_refuted.
    apply (H "" " " "."%char); [reflexivity|discriminate|reflexivity]. }
  repeat split; vm_compute; reflexivity.
Qed.

(** C10 (amended). The sentence filter drops only the empty pieces, so a
    piece made of white space alone is a sentence.  White space after a
    terminal punctuation mark adds exactly one sentence and leaves the
    words and the quantifier matches as they were, so the impact ratio and
    the average sentence length are divided by [n + 1] in place of
    [max n 1], where [n] is the number of sentences without the white
    space.  With [n = 0] the divisor is 1 either way and the statistics do
    not change.  As exact quotients the two ratios are never raised, and
    they are lowered exactly when [0 < n] and the numerator is not zero.
    White space between two terminal marks adds one sentence as well, but
    it can split a word, and then the average sentence length may rise.
    On [Cut costs by 20%.] a trailing blank takes the impact score from
    100 to 75, and it turns an average of 18 words (brevity 100) into one
    of 9 (brevity 80). *)
Theorem whitespace_only_segment_is_a_sentence
        (t ws : string) (p : ascii) :
  is_terminal p = true -> ws <> "" -> JS.all_space ws = true ->
  (forall text seg,
     In seg (JS.split is_terminal text) -> seg <> "" ->
     In seg (sentences_of text))
  /\ sentences_of (t ++ String p ws)
     = sentences_of (t ++ String p "") ++ [ws]
  /\ List.length (sentences_of (t ++ String p ws))
     = S (List.length (sentences_of (t ++ String p "")))
  /\ words_of (t ++ String p ws) = words_of (t ++ String p "")
  /\ List.length (quantifiers_of (t ++ String p ws))
     = List.length (quantifiers_of (t ++ String p ""))
  /\ calculateStats (t ++ String p ws)
     = Some {| wordCount := List.length (words_of (t ++ String p ""));
               impactScore :=
                 impact_of
                   (List.length (quantifiers_of (t ++ String p "")))
                   (S (List.length (sentences_of (t ++ String p ""))));
               verbScore :=
                 verb_score_of
                   (fst (verb_counts (words_of (t ++ String p ""))))
                   (snd (verb_counts (words_of (t ++ String p ""))));
               brevityScore :=
                 brevity_of
                   (avgSentenceLength_of
                      (List.length (words_of (t ++ String p "")))
                      (S (List.length (sentences_of (t ++ String p ""))))) |}
  /\ (forall q n,
        impact_of q n
        = JS.Math_min 100%float
            (JS.Math_round (impact_ratio_of q n * 100 * 1.5)%float))
  /\ impact_ratio (t ++ String p ws)
     = (JS.num (List.length (quantifiers_of (t ++ String p "")))
        / JS.num (S (List.length (sentences_of (t ++ String p "")))))%float
  /\ impact_ratio (t ++ String p "")
     = (JS.num (List.length (quantifiers_of (t ++ String p "")))
        / JS.num (Nat.max (List.length (sentences_of (t ++ String p ""))) 1))%float
  /\ avgSentenceLength (t ++ String p ws)
     = (JS.num (List.length (words_of (t ++ String p "")))
        / JS.num (S (List.length (sentences_of (t ++ String p "")))))%float
  /\ avgSentenceLength (t ++ String p "")
     = (JS.num (List.length (words_of (t ++ String p "")))
        / JS.num (Nat.max (List.length (sentences_of (t ++ String p ""))) 1))%float
  /\ (sentences_of (t ++ String p "") = [] ->
      impact_ratio (t ++ String p ws) = impact_ratio (t ++ String p "")
      /\ avgSentenceLength (t ++ String p ws)
         = avgSentenceLength (t ++ String p "")
      /\ calculateStats (t ++ String p ws)
         = calculateStats (t ++ String p ""))
  /\ (forall k,
        QArith_base.Qle
          (exact_quotient k
             (S (List.length (sentences_of (t ++ String p "")))))
          (exact_quotient k
             (Nat.max (List.length (sentences_of (t ++ String p ""))) 1))
        /\ (QArith_base.Qlt
              (exact_quotient k
                 (S (List.length (sentences_of (t ++ String p "")))))
              (exact_quotient k
                 (Nat.max (List.length (sentences_of (t ++ String p ""))) 1))
            <-> 0 < k /\ 0 < List.length (sentences_of (t ++ String p ""))))
  /\ (forall q u,
        is_terminal q = true ->
        exists before after,
          sentences_of (t ++ String p (ws ++ String q u))
          = before ++ [ws] ++ after
          /\ sentences_of (t ++ String p (String q u)) = before ++ after)
  /\ sentences_of "One. .Two" = ["One"; " "; "Two"]
  /\ sentences_of "One..Two" = ["One"; "Two"]
  /\ words_of "One. .Two" = ["One."; ".Two"]
  /\ words_of "One..Two" = ["One..Two"]
  /\ avgSentenceLength "One..Two" = 0.5%float
  /\ (0.5 <? avgSentenceLength "One. .Two")%float = true
  /\ option_map impactScore (calculateStats "Cut costs by 20%.")
     = Some 100%float
  /\ option_map impactScore (calculateStats "Cut costs by 20%. ")
     = Some 75%float
  /\ avgSentenceLength
       "Led a team of nine people and shipped the new billing flow to all of the paying customers."
     = 18%float
  /\ avgSentenceLength
       "Led a team of nine people and shipped the new billing flow to all of the paying customers. "
     = 9%float
  /\ brevity_of 18 = 100%float
  /\ brevity_of 9 = 80%float.
Proof.
  intros Hp Hne Hws.
  pose proof (sentences_of_app_space t ws p Hp Hne Hws) as Hs.
  pose proof (words_of_app_space t ws p Hws) as Hw.
  assert (Hq : List.length (quantifiers_of (t ++ String p ws))
               = List.length (quantifiers_of (t ++ String p ""))).
  { rewrite !quantifiers_of_count. apply match_from_app_space; assumption. }
  assert (Hn : List.length (sentences_of (t ++ String p ws))
               = S (List.length (sentences_of (t ++ String p "")))).
  { rewrite Hs, length_app. simpl. lia. }
  assert (Hstats :
            calculateStats (t ++ String p ws)
            = Some {| wordCount := List.length (words_of (t ++ String p ""));
                      impactScore :=
                        impact_of
                          (List.length (quantifiers_of (t ++ String p "")))
                          (S (List.length (sentences_of (t ++ String p ""))));
                      verbScore :=
                        verb_score_of
                          (fst (verb_counts (words_of (t ++ String p ""))))
                          (snd (verb_counts (words_of (t ++ String p ""))));
                      brevityScore :=
                        brevity_of
                          (avgSentenceLength_of
                             (List.length (words_of (t ++ String p "")))
                             (S (List.length
                                   (sentences_of (t ++ String p ""))))) |}).
  { rewrite (calculateStats_nonempty _ (app_terminal_nonempty t ws p)).
    unfold avgSentenceLength. rewrite Hw, Hq, Hn. reflexivity. }
  split.
  { intros text seg Hin Hseg. unfold sentences_of. apply filter_In.
    split; [exact Hin|]. destruct seg; [congruence|reflexivity]. }
  split; [exact Hs|]. split; [exact Hn|]. split; [exact Hw|].
  split; [exact Hq|]. split; [exact Hstats|].
  split; [intros q n; reflexivity|].
  split.
  { unfold impact_ratio, impact_ratio_of. rewrite Hq, Hn. reflexivity. }
  split.
  { unfold impact_ratio, impact_ratio_of. rewrite or_default_max.
    reflexivity. }
  split.
  { unfold avgSentenceLength, avgSentenceLength_of. rewrite Hw, Hn.
    reflexivity. }
  split.
  { unfold avgSentenceLength, avgSentenceLength_of. rewrite or_default_max.
    reflexivity. }
  split.
  { intros H0.
    split; [unfold impact_ratio; rewrite Hq, Hn, H0; reflexivity|].
    split; [unfold avgSentenceLength; rewrite Hw, Hn, H0; reflexivity|].
    rewrite Hstats.
    rewrite (calculateStats_nonempty _ (app_terminal_nonempty t "" p)).
    unfold avgSentenceLength. rewrite H0. reflexivity. }
  split.
  { intros k. rewrite <- or_default_max. apply exact_quotient_one_more. }
  split.
  { intros q u Hterm. apply sentences_of_inner_space; assumption. }
  repeat split; vm_compute; reflexivity.
Qed.

Lemma whitespace_only_segment_is_a_sentence_witness :
  sentences_of "Cut costs by 20%. " = ["Cut costs by 20%"; " "]
  /\ sentences_of "Cut costs by 20%." = ["Cut costs by 20%"].
Proof.
  assert (Hp : is_terminal "."%char = true) by reflexivity.
  assert (Hne : " " <> "") by discriminate.
  assert (Hws : JS.all_space " " = true) by reflexivity.
  destruct (whitespace_only_segment_is_a_sentence
              "Cut costs by 20%" " " "."%char Hp Hne Hws) as (_ & H & _).
  split; [exact H|reflexivity].
Defined.

(** * Further properties of the code *)

(** ** Tokens *)

Lemma all_chars_app (p : ascii -> bool) (a b : string) :
  all_chars p (a ++ b) = all_chars p a && all_chars p b.
Proof.
  induction a as [|c r IH]; simpl; [reflexivity|].
  rewrite IH, andb_assoc. reflexivity.
Qed.

Lemma split_go_free (sep : ascii -> bool) (s : string) :
  forall cur b,
    free_of sep cur = true ->
    Forall (fun w => free_of sep w = true) (JS.split_go sep s cur b).
Proof.
  induction s as [|c r IH]; intros cur b Hcur; cbn [JS.split_go].
  - constructor; [exact Hcur|constructor].
  - destruct (sep c) eqn:Hc.
    + destruct b; [apply IH; reflexivity|].
      constructor; [exact Hcur|apply IH; reflexivity].
    + apply IH. unfold free_of in *. rewrite all_chars_app, Hcur.
      simpl. rewrite Hc. reflexivity.
Qed.

Lemma filter_tokens (sep : ascii -> bool) (l : list string) :
  Forall (fun w => free_of sep w = true) l ->
  Forall (token sep) (filter (fun w => 0 <? String.length w) l).
Proof.
  intros H. apply Forall_forall. intros w Hw.
  apply filter_In in Hw. destruct Hw as [Hin Hlen].
  rewrite Forall_forall in H. split; [|apply H; exact Hin].
  destruct w; [discriminate|discriminate].
Qed.

Lemma split_go_some (sep : ascii -> bool) (s : string) :
  forall cur b, 1 <= List.length (JS.split_go sep s cur b).
Proof.
  induction s as [|c r IH]; intros cur b; cbn [JS.split_go]; [simpl; lia|].
  destruct (sep c); [destruct b|]; simpl; try apply IH; lia.
Qed.

(** The pieces found by [split], other than the first, each follow at
    least one separator. *)
Lemma split_go_count (sep : ascii -> bool) (s : string) :
  forall cur b,
    List.length (JS.split_go sep s cur b) - 1
    + total_length (JS.split_go sep s cur b)
    <= String.length cur + String.length s.
Proof.
  induction s as [|c r IH]; intros cur b; cbn [JS.split_go].
  - simpl. lia.
  - destruct (sep c).
    + destruct b.
      * specialize (IH "" true). simpl in *. lia.
      * specialize (IH "" true).
        pose proof (split_go_some sep r "" true).
        simpl in *. lia.
    + specialize (IH (cur ++ String c "")%string false).
      rewrite length_snoc in IH. simpl. lia.
Qed.

Lemma filter_nonempty_total (l : list string) :
  total_length (filter (fun w => 0 <? String.length w) l) = total_length l.
Proof.
  induction l as [|w l IH]; simpl; [reflexivity|].
  destruct w; simpl; [exact IH|rewrite IH; reflexivity].
Qed.

Lemma tokens_count (sep : ascii -> bool) (text : string) :
  2 * List.length
        (filter (fun w => 0 <? String.length w) (JS.split sep text))
  <= String.length text + 1.
Proof.
  pose proof (split_go_count sep text "" false) as H.
  pose proof (filter_nonempty_length (JS.split_go sep text "" false)) as H1.
  pose proof (filter_length_le (fun w => 0 <? String.length w)
                (JS.split_go sep text "" false)) as H2.
  unfold JS.split. unfold nonempty in H1. simpl in H. lia.
Qed.

(** Every word is a non-empty string without white space and every
    sentence a non-empty string without terminal punctuation; the words
    (the sentences) never hold more characters than the text, and a text
    of [n] characters has at most [(n + 1) / 2] words and as many
    sentences at most. *)
Theorem tokens_are_clean (text : string) :
  Forall (token JS.is_space) (words_of text)
  /\ Forall (token is_terminal) (sentences_of text)
  /\ total_length (words_of text) <= String.length text
  /\ total_length (sentences_of text) <= String.length text
  /\ 2 * List.length (words_of text) <= String.length text + 1
  /\ 2 * List.length (sentences_of text) <= String.length text + 1.
Proof.
  split; [apply filter_tokens, split_go_free; reflexivity|].
  split; [apply filter_tokens, split_go_free; reflexivity|].
  split; [apply words_of_total|].
  split.
  { unfold sentences_of. etransitivity; [apply filter_total_length|].
    apply (split_go_total is_terminal text "" false). }
  split; apply tokens_count.
Qed.

Lemma split_go_flag (sep : ascii -> bool) (c : ascii) (r cur : string) :
  sep c = false ->
  JS.split_go sep (String c r) cur true = JS.split_go sep (String c r) cur false.
Proof. intros H. cbn [JS.split_go]. rewrite H. reflexivity. Qed.

Lemma split_go_joined (sep : ascii -> bool) (q : ascii) (ws : list string) :
  sep q = true -> Forall (token sep) ws ->
  forall b,
    filter (fun w => 0 <? String.length w)
      (JS.split_go sep (String.concat (String q "") ws) "" b)
    = ws.
Proof.
  intros Hq Hws. induction Hws as [|w l [Hne Hfree] Hl IH]; intros b.
  - reflexivity.
  - destruct w as [|c w']; [congruence|].
    assert (Hc : sep c = false).
    { unfold free_of in Hfree. simpl in Hfree.
      apply andb_true_iff in Hfree. destruct Hfree as [Hc _].
      apply negb_true_iff in Hc. exact Hc. }
    destruct l as [|w2 l'].
    + cbn [String.concat].
      rewrite (split_go_no_sep sep (String c w') "" b Hfree). reflexivity.
    + change (String.concat (String q "") (String c w' :: w2 :: l'))
        with (String c w' ++ String q (String.concat (String q "") (w2 :: l')))%string.
      assert (Hb : JS.split_go sep
                     (String c w' ++
                      String q (String.concat (String q "") (w2 :: l'))) "" b
                   = JS.split_go sep
                       (String c w' ++
                        String q (String.concat (String q "") (w2 :: l'))) ""
                       false).
      { destruct b; [|reflexivity]. apply split_go_flag. exact Hc. }
      rewrite Hb, (split_go_piece sep q (String c w') _ Hq Hfree "").
      change ("" ++ String c w')%string with (String c w').
      cbn [filter].
      change (0 <? String.length (String c w')) with true.
      cbv iota. rewrite (IH true). reflexivity.
Qed.

(** Splitting undoes joining: words joined by single blanks are found
    again as they were, and so are sentences joined by full stops. *)
Theorem split_undoes_join (ws : list string) :
  (Forall (token JS.is_space) ws -> words_of (String.concat " " ws) = ws)
  /\ (Forall (token is_terminal) ws ->
      sentences_of (String.concat "." ws) = ws).
Proof.
  split; intros H.
  - apply (split_go_joined JS.is_space " "%char ws eq_refl H false).
  - apply (split_go_joined is_terminal "."%char ws eq_refl H false).
Qed.

Lemma split_undoes_join_witness :
  words_of "Led the team" = ["Led"; "the"; "team"].
Proof.
  destruct (split_undoes_join ["Led"; "the"; "team"]) as [H _].
  apply H. repeat constructor; discriminate.
Defined.

(** ** Quantifier matches *)

Lemma digits_len_le (s : string) : digits_len s <= String.length s.
Proof.
  induction s as [|c r IH]; simpl; [lia|]. destruct (JS.is_digit c); lia.
Qed.

Lemma char_at_lt (p : ascii -> bool) (i : nat) (s : string) :
  char_at_is p i s = true -> i < String.length s.
Proof.
  unfold char_at_is. revert i. induction s as [|c r IH]; intros i; simpl.
  - destruct i; discriminate.
  - destruct i as [|i]; [lia|]. intros H. specialize (IH i H). lia.
Qed.

Lemma substring_digits (s : string) :
  all_chars JS.is_digit (substring 0 (digits_len s) s) = true
  /\ String.length (substring 0 (digits_len s) s) = digits_len s.
Proof.
  induction s as [|c r [IH1 IH2]]; simpl; [auto|].
  destruct (JS.is_digit c) eqn:Hc; simpl; [|auto].
  rewrite Hc, IH1, IH2. auto.
Qed.

Lemma substring_digits_mark (p : ascii -> bool) (s : string) :
  (forall c, p c = true -> is_suffix_mark c = true) ->
  char_at_is p (digits_len s) s = true ->
  digits_mark (substring 0 (S (digits_len s)) s) = true
  /\ String.length (substring 0 (S (digits_len s)) s) = S (digits_len s).
Proof.
  intros Hp. unfold char_at_is. induction s as [|c r IH]; [discriminate|].
  cbn [digits_len]. destruct (JS.is_digit c) eqn:Hc.
  - cbn [String.get]. intros H. destruct (IH H) as [IH1 IH2].
    change (substring 0 (S (S (digits_len r))) (String c r))
      with (String c (substring 0 (S (digits_len r)) r)).
    cbn [String.length]. rewrite IH2. split; [|reflexivity].
    destruct (substring 0 (S (digits_len r)) r) as [|c' r'] eqn:E;
      [discriminate|].
    change (digits_mark (String c (String c' r')))
      with (JS.is_digit c && digits_mark (String c' r')).
    rewrite Hc, IH1. reflexivity.
  - cbn [String.get]. intros H.
    change (substring 0 1 (String c r)) with (String c (substring 0 0 r)).
    assert (E : substring 0 0 r = "") by (destruct r; reflexivity).
    rewrite E. split; [|reflexivity]. apply Hp. exact H.
Qed.

Lemma mark_percent (c : ascii) : is_char 37 c = true -> is_suffix_mark c = true.
Proof. unfold is_suffix_mark. intros ->. reflexivity. Qed.

Lemma mark_k (c : ascii) : is_k c = true -> is_suffix_mark c = true.
Proof.
  unfold is_suffix_mark. intros ->. destruct (is_char 37 c); reflexivity.
Qed.

Lemma mark_m (c : ascii) : is_m c = true -> is_suffix_mark c = true.
Proof.
  unfold is_suffix_mark. intros ->.
  destruct (is_char 37 c); destruct (is_k c); reflexivity.
Qed.

Lemma mark_plus (c : ascii) : is_char 43 c = true -> is_suffix_mark c = true.
Proof.
  unfold is_suffix_mark. intros H. rewrite H.
  destruct (is_char 37 c); destruct (is_k c); destruct (is_m c); reflexivity.
Qed.

Lemma digit_not_dollar (c : ascii) : JS.is_digit c = true -> is_char 36 c = false.
Proof.
  destruct c as [[] [] [] [] [] [] [] []]; vm_compute; intros H;
    try reflexivity; discriminate H.
Qed.

(** A match through one of the four alternatives that begin with
    digits. *)
Lemma digits_alternative (p : ascii -> bool) (s : string) :
  (forall c, p c = true -> is_suffix_mark c = true) ->
  (0 <? digits_len s) && char_at_is p (digits_len s) s = true ->
  well_formed_quantifier (substring 0 (S (digits_len s)) s) = true
  /\ String.length (substring 0 (S (digits_len s)) s) = S (digits_len s)
  /\ 2 <= S (digits_len s) <= String.length s.
Proof.
  intros Hp H. apply andb_true_iff in H. destruct H as [Hd Hc].
  apply Nat.ltb_lt in Hd.
  pose proof (char_at_lt p _ s Hc) as Hlt.
  destruct (substring_digits_mark p s Hp Hc) as [H1 H2].
  split; [|split; [exact H2|lia]].
  destruct s as [|c r]; [simpl in Hd; lia|].
  cbn [digits_len] in *. destruct (JS.is_digit c) eqn:Hdc; [|lia].
  change (substring 0 (S (S (digits_len r))) (String c r))
    with (String c (substring 0 (S (digits_len r)) r)) in *.
  cbn [well_formed_quantifier]. rewrite (digit_not_dollar c Hdc), Hdc.
  destruct (substring 0 (S (digits_len r)) r) as [|c' r'] eqn:E.
  - simpl in H2. pose proof (f_equal String.length E) as HE.
    destruct r as [|c2 r2]; [|simpl in HE; discriminate].
    unfold char_at_is in Hc. simpl in Hc. discriminate.
  - change (digits_mark (String c (String c' r')))
      with (JS.is_digit c && digits_mark (String c' r')) in H1.
    rewrite Hdc in H1. exact H1.
Qed.

Lemma quantifier_at_shape (s : string) (n : nat) :
  quantifier_at s = Some n ->
  well_formed_quantifier (substring 0 n s) = true
  /\ String.length (substring 0 n s) = n
  /\ 2 <= n <= String.length s.
Proof.
  unfold quantifier_at.
  destruct ((0 <? digits_len s) && char_at_is (is_char 37) (digits_len s) s)
    eqn:E1.
  { intros H. injection H as <-. apply (digits_alternative _ s mark_percent E1). }
  destruct s as [|c r]; [discriminate|].
  destruct (is_char 36 c && (0 <? digits_len r)) eqn:E2.
  { intros H. injection H as <-.
    apply andb_true_iff in E2. destruct E2 as [Hc Hd].
    apply Nat.ltb_lt in Hd.
    destruct (substring_digits r) as [H1 H2]. pose proof (digits_len_le r).
    change (substring 0 (S (digits_len r)) (String c r))
      with (String c (substring 0 (digits_len r) r)).
    cbn [well_formed_quantifier String.length]. rewrite Hc, H1, H2.
    split; [|split; [reflexivity|simpl; lia]].
    apply andb_true_iff. split; [apply Nat.ltb_lt; exact Hd|reflexivity]. }
  destruct ((0 <? digits_len (String c r))
            && char_at_is is_k (digits_len (String c r)) (String c r)) eqn:E3.
  { intros H. injection H as <-. apply (digits_alternative _ _ mark_k E3). }
  destruct ((0 <? digits_len (String c r))
            && char_at_is is_m (digits_len (String c r)) (String c r)) eqn:E4.
  { intros H. injection H as <-. apply (digits_alternative _ _ mark_m E4). }
  destruct ((0 <? digits_len (String c r))
            && char_at_is (is_char 43) (digits_len (String c r)) (String c r))
    eqn:E5; [|discriminate].
  intros H. injection H as <-. apply (digits_alternative _ _ mark_plus E5).
Qed.

Lemma match_from_shape (s : string) :
  forall skip,
    Forall (fun m => well_formed_quantifier m = true
                     /\ 2 <= String.length m)
           (match_from s skip)
    /\ 2 * List.length (match_from s skip) <= String.length s - skip.
Proof.
  induction s as [|c r IH]; intros skip; [split; [constructor|simpl; lia]|].
  cbn [match_from]. destruct skip as [|k].
  - destruct (quantifier_at (String c r)) as [n|] eqn:E.
    + destruct (quantifier_at_shape _ n E) as (H1 & H2 & H3).
      destruct (IH (n - 1)) as [IH1 IH2]. split.
      * constructor; [split; [exact H1|lia]|exact IH1].
      * simpl in *. lia.
    + destruct (IH 0) as [IH1 IH2]. split; [exact IH1|simpl; lia].
  - destruct (IH k) as [IH1 IH2]. split; [exact IH1|simpl; lia].
Qed.

(** Every quantifier match is a dollar sign followed by digits, or
    digits followed by one of [%], [k], [K], [m], [M], [+]; it has at
    least two characters, matches do not overlap, and so a text of [n]
    characters has at most [n / 2] of them. *)
Theorem quantifiers_are_well_formed (text : string) :
  Forall (fun m => well_formed_quantifier m = true /\ 2 <= String.length m)
         (quantifiers_of text)
  /\ 2 * List.length (quantifiers_of text) <= String.length text.
Proof.
  destruct (match_from_shape text 0) as [H1 H2].
  unfold quantifiers_of, match_quantifiers.
  destruct (match_from text 0) as [|m l]; [split; [constructor|simpl; lia]|].
  split; [exact H1|lia].
Qed.

(** ** Scores of texts without quantifiers, strong verbs or words *)

Lemma zero_quotient (n : nat) :
  0 < n -> (Z.of_nat n < 2 ^ 53)%Z -> (JS.num 0 / JS.num n)%float = 0%float.
Proof.
  intros Hpos Hn. apply Prim2SF_inj.
  rewrite FloatAxioms.div_spec, (num_spec n Hn).
  change (Prim2SF (JS.num 0)) with (S754_zero false).
  change (Prim2SF 0) with (S754_zero false).
  unfold sf_of_nat. destruct (Z.of_nat n) eqn:E; try lia. reflexivity.
Qed.

Lemma impact_of_zero (n : nat) :
  (Z.of_nat n < 2 ^ 53)%Z -> impact_of 0 n = 0%float.
Proof.
  intros Hn. unfold impact_of. rewrite zero_quotient.
  - vm_compute. reflexivity.
  - apply or_default_pos.
  - destruct n; simpl JS.or_default; [reflexivity|exact Hn].
Qed.

Lemma verb_score_of_zero (wc : nat) :
  (Z.of_nat (wc + 1) < 2 ^ 53)%Z -> verb_score_of 0 wc = 0%float.
Proof.
  intros Hn. unfold verb_score_of. cbn [Nat.add]. rewrite zero_quotient.
  - vm_compute. reflexivity.
  - lia.
  - exact Hn.
Qed.

Lemma quantifier_at_no_digit (s : string) :
  free_of JS.is_digit s = true -> quantifier_at s = None.
Proof.
  unfold free_of. destruct s as [|c r]; [reflexivity|]. simpl.
  intros H. apply andb_true_iff in H. destruct H as [Hc Hr].
  apply negb_true_iff in Hc. unfold quantifier_at. cbn [digits_len].
  rewrite Hc. cbn [Nat.ltb Nat.leb andb].
  assert (Hd : digits_len r = 0).
  { destruct r as [|c2 r2]; [reflexivity|]. simpl in Hr.
    apply andb_true_iff in Hr. destruct Hr as [Hc2 _].
    apply negb_true_iff in Hc2. simpl. rewrite Hc2. reflexivity. }
  rewrite Hd. rewrite andb_false_r. reflexivity.
Qed.

Lemma match_from_no_digit (s : string) :
  free_of JS.is_digit s = true -> forall skip, match_from s skip = [].
Proof.
  induction s as [|c r IH]; intros H skip; [reflexivity|].
  pose proof (quantifier_at_no_digit _ H) as Hq.
  unfold free_of in H. simpl in H. apply andb_true_iff in H.
  destruct H as [_ Hr]. cbn [match_from].
  destruct skip; [rewrite Hq|]; apply IH; exact Hr.
Qed.

Lemma filter_none {A : Type} (f : A -> bool) (l : list A) :
  Forall (fun x => f x = false) l -> filter f l = [].
Proof.
  induction 1 as [|x l Hx Hl IH]; [reflexivity|].
  simpl. rewrite Hx. exact IH.
Qed.

(** A text without a digit has an impact score of 0, and a text none of
    whose words is a listed strong verb has a verb score of 0, whatever
    else it holds. *)
Theorem nothing_counted_scores_zero (text : string) (st : Stats) :
  (Z.of_nat (String.length text) < 2 ^ 53)%Z ->
  calculateStats text = Some st ->
  (free_of JS.is_digit text = true -> impactScore st = 0%float)
  /\ (quantifiers_of text = [] -> impactScore st = 0%float)
  /\ (Forall (fun w => strongb w = false) (words_of text) ->
      verbScore st = 0%float).
Proof.
  intros Hlen Hst.
  rewrite (calculateStats_nonempty text (calculateStats_Some text st Hst)) in Hst.
  injection Hst as <-. cbn [impactScore verbScore].
  pose proof (sentences_of_length text).
  pose proof (verb_counts_bound text) as Hv.
  assert (Hq : quantifiers_of text = [] ->
               impact_of (List.length (quantifiers_of text))
                         (List.length (sentences_of text)) = 0%float).
  { intros ->. apply impact_of_zero. lia. }
  split; [|split; [exact Hq|]].
  - intros Hd. apply Hq. unfold quantifiers_of, match_quantifiers.
    rewrite (match_from_no_digit text Hd 0). reflexivity.
  - intros Hs. unfold verb_counts in *.
    rewrite (fold_count_verb (words_of text) 0 0) in *. cbn [fst snd] in *.
    rewrite (filter_none strongb (words_of text) Hs) in *. simpl in *. apply verb_score_of_zero. lia.
Qed.

Lemma nothing_counted_scores_zero_witness :
  option_map impactScore (calculateStats "Helped the team ship.") = Some 0%float
  /\ option_map verbScore (calculateStats "Helped the team ship.") = Some 0%float.
Proof.
  assert (Hl : (Z.of_nat (String.length "Helped the team ship.") < 2 ^ 53)%Z)
    by (vm_compute; reflexivity).
  destruct (calculateStats "Helped the team ship.") as [st|] eqn:E;
    [|vm_compute in E; discriminate E].
  destruct (nothing_counted_scores_zero _ st Hl E) as (H1 & _ & H2).
  simpl. rewrite (H1 eq_refl), H2; [split; reflexivity|].
  repeat constructor.
Defined.

Lemma split_go_blank_rest (sep : ascii -> bool) (ws : string) :
  all_chars sep ws = true ->
  filter (fun w => 0 <? String.length w) (JS.split sep ws) = [].
Proof.
  intros H. unfold JS.split.
  rewrite (split_go_spaces sep ws H "" false); [reflexivity|discriminate].
Qed.

Lemma calculateStats_blank (text : string) :
  text <> "" -> JS.all_space text = true ->
  calculateStats text = Some blank_stats.
Proof.
  intros Hne Hws. rewrite all_space_all_chars in Hws.
  assert (Hw : words_of text = [])
    by (apply split_go_blank_rest; exact Hws).
  assert (Hs : sentences_of text = [text]).
  { unfold sentences_of, JS.split.
    rewrite (split_go_no_sep is_terminal text "" false
               (all_chars_impl _ _ text space_not_terminal Hws)).
    simpl. destruct text; [congruence|reflexivity]. }
  assert (Hq : quantifiers_of text = []).
  { unfold quantifiers_of, match_quantifiers.
    rewrite (match_from_inert text
               (all_chars_impl _ _ text space_inert Hws) 0). reflexivity. }
  rewrite (calculateStats_nonempty text Hne).
  unfold avgSentenceLength. rewrite Hw, Hs, Hq. reflexivity.
Qed.

Lemma realGeminiAnalysis_resolves (rt : Runtime) (text jd : string) :
  exists v, snd (realGeminiAnalysis rt text jd) = Resolved v.
Proof.
  unfold realGeminiAnalysis.
  destruct (generateContent rt _) as [t|]; [|exists VUndefined; reflexivity].
  destruct (clean_and_parse rt t) as [v|];
    [exists v|exists VUndefined]; reflexivity.
Qed.

(** What a validated run leaves behind, whatever the runtime. *)
Lemma handleAnalyze_validated (rt : Runtime) (st : AppState) :
  50 <= String.length (resumeText st) ->
  exists v,
    fst (handleAnalyze rt st)
    = setStep 3
        (setAiResult v
           (setStats (calculateStats (resumeText st)) (setStep 2 st))).
Proof.
  intros Hlen. destruct (truthy (API_KEY rt)) eqn:Hkey.
  - rewrite (handleAnalyze_remote rt st Hlen Hkey). cbn [fst].
    destruct (realGeminiAnalysis_resolves rt (resumeText st) (jobDesc st))
      as [v Hv].
    rewrite Hv. exists v. reflexivity.
  - rewrite (handleAnalyze_mock rt st Hlen Hkey).
    exists (mock_value (jobDesc st)). reflexivity.
Qed.

(** White space counts towards the minimum length but not as words: a
    text of white space only has no word, one sentence and the scores 0,
    0 and 80, and with 50 characters or more the handler accepts it,
    stores these statistics and goes on to the report. *)
Theorem blank_text_is_analysed (rt : Runtime) (st : AppState) :
  JS.all_space (resumeText st) = true ->
  50 <= String.length (resumeText st) ->
  calculateStats (resumeText st) = Some blank_stats
  /\ List.length (sentences_of (resumeText st)) = 1
  /\ stats (fst (handleAnalyze rt st)) = Some blank_stats
  /\ step (fst (handleAnalyze rt st)) = 3.
Proof.
  intros Hws Hlen.
  assert (Hne : resumeText st <> "")
    by (destruct (resumeText st); [simpl in Hlen; lia|discriminate]).
  pose proof (calculateStats_blank _ Hne Hws) as Hc.
  split; [exact Hc|]. split.
  { rewrite all_space_all_chars in Hws. unfold sentences_of, JS.split.
    rewrite (split_go_no_sep is_terminal (resumeText st) "" false
               (all_chars_impl _ _ _ space_not_terminal Hws)).
    simpl. destruct (resumeText st); [congruence|reflexivity]. }
  destruct (handleAnalyze_validated rt st Hlen) as [v Hv].
  rewrite Hv. split; [exact Hc|reflexivity].
Qed.

Lemma blank_text_is_analysed_witness :
  stats (fst (handleAnalyze offline
                {| step := 1;
                   resumeText :=
                     "                                                  ";
                   jobDesc := ""; stats := None; aiResult := VNull |}))
  = Some blank_stats.
Proof.
  apply blank_text_is_analysed; [reflexivity|vm_compute; lia].
Defined.

(** ** Letter case *)

Ltac by_cases_on_char c :=
  destruct c as [[] [] [] [] [] [] [] []]; vm_compute; reflexivity.

Lemma lower_idem (c : ascii) : JS.lower_char (JS.lower_char c) = JS.lower_char c.
Proof. by_cases_on_char c. Qed.

Lemma lower_is_space (c : ascii) : JS.is_space (JS.lower_char c) = JS.is_space c.
Proof. by_cases_on_char c. Qed.

Lemma lower_is_terminal (c : ascii) : is_terminal (JS.lower_char c) = is_terminal c.
Proof. by_cases_on_char c. Qed.

Lemma lower_is_digit (c : ascii) : JS.is_digit (JS.lower_char c) = JS.is_digit c.
Proof. by_cases_on_char c. Qed.

Lemma lower_is_percent (c : ascii) : is_char 37 (JS.lower_char c) = is_char 37 c.
Proof. by_cases_on_char c. Qed.

Lemma lower_is_dollar (c : ascii) : is_char 36 (JS.lower_char c) = is_char 36 c.
Proof. by_cases_on_char c. Qed.

Lemma lower_is_plus (c : ascii) : is_char 43 (JS.lower_char c) = is_char 43 c.
Proof. by_cases_on_char c. Qed.

Lemma lower_is_k (c : ascii) : is_k (JS.lower_char c) = is_k c.
Proof. by_cases_on_char c. Qed.

Lemma lower_is_m (c : ascii) : is_m (JS.lower_char c) = is_m c.
Proof. by_cases_on_char c. Qed.

Lemma toLowerCase_idem (s : string) :
  JS.toLowerCase (JS.toLowerCase s) = JS.toLowerCase s.
Proof.
  induction s as [|c r IH]; simpl; [reflexivity|].
  rewrite lower_idem, IH. reflexivity.
Qed.

Lemma toLowerCase_snoc (s : string) (c : ascii) :
  JS.toLowerCase (s ++ String c "")
  = (JS.toLowerCase s ++ String (JS.lower_char c) "")%string.
Proof. induction s as [|a r IH]; simpl; [reflexivity|]. rewrite IH. reflexivity. Qed.

Lemma split_go_lower (sep : ascii -> bool) (s : string) :
  (forall c, sep (JS.lower_char c) = sep c) ->
  forall cur b,
    JS.split_go sep (JS.toLowerCase s) (JS.toLowerCase cur) b
    = map JS.toLowerCase (JS.split_go sep s cur b).
Proof.
  intros Hsep. induction s as [|c r IH]; intros cur b;
    cbn [JS.toLowerCase JS.split_go]; [reflexivity|].
  rewrite Hsep. destruct (sep c).
  - destruct b; cbn [map]; rewrite <- (IH "" true); reflexivity.
  - rewrite <- toLowerCase_snoc. apply IH.
Qed.

Lemma filter_nonempty_lower (l : list string) :
  filter (fun w => 0 <? String.length w) (map JS.toLowerCase l)
  = map JS.toLowerCase (filter (fun w => 0 <? String.length w) l).
Proof.
  induction l as [|w l IH]; [reflexivity|]. cbn [map filter].
  rewrite toLowerCase_length, IH.
  destruct (0 <? String.length w); reflexivity.
Qed.

Lemma words_of_lower (text : string) :
  words_of (JS.toLowerCase text) = map JS.toLowerCase (words_of text).
Proof.
  unfold words_of, JS.split.
  pose proof (split_go_lower JS.is_space text lower_is_space "" false) as H.
  cbn [JS.toLowerCase] in H. rewrite H.
  apply filter_nonempty_lower.
Qed.

Lemma sentences_of_lower (text : string) :
  sentences_of (JS.toLowerCase text) = map JS.toLowerCase (sentences_of text).
Proof.
  unfold sentences_of, JS.split.
  pose proof (split_go_lower is_terminal text lower_is_terminal "" false) as H.
  cbn [JS.toLowerCase] in H. rewrite H.
  apply filter_nonempty_lower.
Qed.

Lemma digits_len_lower (s : string) :
  digits_len (JS.toLowerCase s) = digits_len s.
Proof.
  induction s as [|c r IH]; simpl; [reflexivity|].
  rewrite lower_is_digit, IH. reflexivity.
Qed.

Lemma char_at_is_lower (q : ascii -> bool) (s : string) :
  (forall c, q (JS.lower_char c) = q c) ->
  forall i, char_at_is q i (JS.toLowerCase s) = char_at_is q i s.
Proof.
  intros Hq. unfold char_at_is. induction s as [|c r IH]; intros i; simpl.
  - destruct i; reflexivity.
  - destruct i; [apply Hq|apply IH].
Qed.

Lemma quantifier_at_lower (s : string) :
  quantifier_at (JS.toLowerCase s) = quantifier_at s.
Proof.
  unfold quantifier_at. rewrite !digits_len_lower.
  rewrite (char_at_is_lower (is_char 37) s lower_is_percent).
  rewrite (char_at_is_lower is_k s lower_is_k).
  rewrite (char_at_is_lower is_m s lower_is_m).
  rewrite (char_at_is_lower (is_char 43) s lower_is_plus).
  destruct s as [|c r]; [reflexivity|]. cbn [JS.toLowerCase].
  rewrite lower_is_dollar, digits_len_lower. reflexivity.
Qed.

Lemma match_from_lower (s : string) :
  forall skip,
    List.length (match_from (JS.toLowerCase s) skip)
    = List.length (match_from s skip).
Proof.
  induction s as [|c r IH]; intros skip; [reflexivity|].
  pose proof (quantifier_at_lower (String c r)) as Hq.
  cbn [JS.toLowerCase] in *. cbn [match_from].
  destruct skip as [|k]; [|apply IH]. rewrite Hq.
  destruct (quantifier_at (String c r)); [|apply IH].
  cbn [List.length]. rewrite IH. reflexivity.
Qed.

Lemma filter_map_length {A : Type} (f : A -> bool) (g : A -> A) (l : list A) :
  (forall x, f (g x) = f x) ->
  List.length (filter f (map g l)) = List.length (filter f l).
Proof.
  intros H. induction l as [|x l IH]; [reflexivity|]. cbn [map filter].
  rewrite H. destruct (f x); simpl; rewrite IH; reflexivity.
Qed.

Lemma verb_counts_lower (ws : list string) :
  verb_counts (map JS.toLowerCase ws) = verb_counts ws.
Proof.
  unfold verb_counts. rewrite !fold_count_verb. f_equal; f_equal;
    apply filter_map_length; intros w; unfold strongb, weakb;
    rewrite toLowerCase_idem; reflexivity.
Qed.

Lemma calculateStats_lower (text : string) :
  calculateStats (JS.toLowerCase text) = calculateStats text.
Proof.
  destruct text as [|c r]; [reflexivity|].
  rewrite (calculateStats_nonempty (JS.toLowerCase (String c r)));
    [|discriminate].
  rewrite (calculateStats_nonempty (String c r)); [|discriminate].
  unfold avgSentenceLength.
  rewrite !quantifiers_of_count, match_from_lower.
  rewrite words_of_lower, sentences_of_lower, verb_counts_lower.
  rewrite !length_map. reflexivity.
Qed.

(** The statistics do not depend on letter case: two texts that are
    equal once lowercased get the same word count and the same three
    scores, and so does a text and its lowercased form. *)
Theorem stats_ignore_case (t1 t2 : string) :
  JS.toLowerCase t1 = JS.toLowerCase t2 ->
  calculateStats t1 = calculateStats t2
  /\ calculateStats (JS.toLowerCase t1) = calculateStats t1.
Proof.
  intros H. split; [|apply calculateStats_lower].
  rewrite <- (calculateStats_lower t1), <- (calculateStats_lower t2), H.
  reflexivity.
Qed.

Lemma stats_ignore_case_witness :
  calculateStats "LED 3 TEAMS. SAVED $5K." = calculateStats "Led 3 teams. Saved $5k.".
Proof.
  apply (stats_ignore_case "LED 3 TEAMS. SAVED $5K." "Led 3 teams. Saved $5k.").
  reflexivity.
Defined.

(** ** What the cleanup leaves *)

Lemma replace_from_head (c : ascii) (r : string) :
  Ascii.eqb "`" c = false ->
  replace_from (String c r) 0 = String c (replace_from r 0).
Proof.
  intros H. cbn [replace_from]. rewrite fence_at_None; [reflexivity|].
  cbn [starts_with fence]. rewrite H. reflexivity.
Qed.

Lemma two_ticks_kept (r : string) :
  starts_with "``" r = false -> starts_with "``" (replace_from r 0) = false.
Proof.
  intros H. destruct r as [|c2 r2]; [reflexivity|].
  destruct (Ascii.eqb "`" c2) eqn:E2.
  - cbn [starts_with] in H. rewrite E2 in H. cbn [andb] in H.
    assert (F : fence_at (String c2 r2) = None).
    { apply fence_at_None. cbn [starts_with fence]. rewrite E2.
      destruct r2 as [|c3 r3]; [reflexivity|].
      cbn [starts_with] in *. destruct (Ascii.eqb "`" c3); [discriminate|].
      reflexivity. }
    cbn [replace_from]. rewrite F. cbn [starts_with]. rewrite E2.
    destruct r2 as [|c3 r3]; [reflexivity|].
    cbn [starts_with] in H. rewrite andb_true_r in H.
    rewrite (replace_from_head c3 r3 H). cbn [starts_with andb].
    rewrite H. reflexivity.
  - rewrite (replace_from_head c2 r2 E2). cbn [starts_with]. rewrite E2.
    reflexivity.
Qed.

Lemma replace_from_fence_free (s : string) :
  forall skip, contains_fence (replace_from s skip) = false.
Proof.
  induction s as [|c r IH]; intros skip; [reflexivity|].
  cbn [replace_from]. destruct skip as [|k]; [|apply IH].
  destruct (fence_at (String c r)) as [n|] eqn:F; [apply IH|].
  cbn [contains_fence]. rewrite (IH 0), orb_false_r.
  cbn [starts_with fence]. destruct (Ascii.eqb "`" c) eqn:E; [|reflexivity].
  cbn [andb]. apply two_ticks_kept.
  unfold fence_at in F.
  destruct (starts_with fence_open (String c r)); [discriminate|].
  destruct (starts_with fence (String c r)) eqn:G; [discriminate|].
  cbn [starts_with fence] in G. rewrite E in G. exact G.
Qed.

Lemma starts_with_app (lit x b : string) :
  starts_with lit x = true -> starts_with lit (x ++ b) = true.
Proof.
  revert x. induction lit as [|a l IH]; intros x H; [reflexivity|].
  destruct x as [|c r]; [discriminate|]. cbn [starts_with append] in *.
  apply andb_true_iff in H. destruct H as [H1 H2].
  rewrite H1, (IH r H2). reflexivity.
Qed.

Lemma contains_fence_prefix (a b : string) :
  contains_fence (a ++ b) = false -> contains_fence a = false.
Proof.
  induction a as [|c r IH]; intros H; [reflexivity|].
  change ((String c r ++ b)%string) with (String c (r ++ b)) in H.
  apply contains_fence_cons in H. destruct H as [H1 H2].
  cbn [contains_fence]. rewrite (IH H2), orb_false_r.
  destruct (starts_with fence (String c r)) eqn:E; [|reflexivity].
  apply (starts_with_app fence (String c r) b) in E.
  change ((String c r ++ b)%string) with (String c (r ++ b)) in E.
  congruence.
Qed.

Lemma trimStart_fence_free (s : string) :
  contains_fence s = false -> contains_fence (JS.trimStart s) = false.
Proof.
  induction s as [|c r IH]; intros H; [reflexivity|].
  cbn [JS.trimStart]. destruct (JS.is_space c); [|exact H].
  apply IH. apply (contains_fence_cons c r H).
Qed.

Lemma trimEnd_prefix (x : string) :
  exists w, x = (JS.trimEnd x ++ w)%string /\ JS.all_space w = true.
Proof.
  induction x as [|c r [w [IH1 IH2]]]; [exists ""; split; reflexivity|].
  cbn [JS.trimEnd]. destruct (JS.all_space (String c r)) eqn:E.
  - exists (String c r). split; [reflexivity|exact E].
  - exists w. split; [|exact IH2]. simpl. rewrite <- IH1. reflexivity.
Qed.

Lemma trim_fence_free (s : string) :
  contains_fence s = false -> contains_fence (JS.trim s) = false.
Proof.
  intros H. unfold JS.trim.
  destruct (trimEnd_prefix (JS.trimStart s)) as [w [Hw _]].
  apply (contains_fence_prefix _ w). rewrite <- Hw.
  apply trimStart_fence_free. exact H.
Qed.

Lemma trimEnd_not_blank (r : string) :
  JS.all_space r = false -> JS.all_space (JS.trimEnd r) = false.
Proof.
  induction r as [|c r' IH]; intros H; [discriminate|].
  cbn [JS.trimEnd]. rewrite H. cbn [JS.all_space] in *.
  destruct (JS.is_space c); [|reflexivity]. apply IH. exact H.
Qed.

Lemma trimEnd_idem (x : string) : JS.trimEnd (JS.trimEnd x) = JS.trimEnd x.
Proof.
  induction x as [|c r IH]; [reflexivity|].
  cbn [JS.trimEnd]. destruct (JS.all_space (String c r)) eqn:E; [reflexivity|].
  cbn [JS.trimEnd].
  assert (E' : JS.all_space (String c (JS.trimEnd r)) = false).
  { cbn [JS.all_space] in *. destruct (JS.is_space c); [|reflexivity].
    apply trimEnd_not_blank. exact E. }
  rewrite E', IH. reflexivity.
Qed.

Lemma trimStart_trimEnd (y : string) :
  JS.trimStart y = y -> JS.trimStart (JS.trimEnd y) = JS.trimEnd y.
Proof.
  destruct y as [|c r]; [reflexivity|]. cbn [JS.trimStart JS.trimEnd].
  destruct (JS.is_space c) eqn:Hc.
  - intros H. exfalso.
    assert (Hl : String.length (JS.trimStart r) <= String.length r).
    { clear. induction r as [|a r IH]; simpl; [lia|].
      destruct (JS.is_space a); simpl; lia. }
    rewrite H in Hl. simpl in Hl. lia.
  - intros _. destruct (JS.all_space (String c r)); [reflexivity|].
    cbn [JS.trimStart]. rewrite Hc. reflexivity.
Qed.

Lemma trimStart_idem (s : string) :
  JS.trimStart (JS.trimStart s) = JS.trimStart s.
Proof.
  induction s as [|c r IH]; [reflexivity|]. cbn [JS.trimStart].
  destruct (JS.is_space c) eqn:Hc; [exact IH|].
  cbn [JS.trimStart]. rewrite Hc. reflexivity.
Qed.

Lemma trim_idem (s : string) : JS.trim (JS.trim s) = JS.trim s.
Proof.
  unfold JS.trim.
  rewrite (trimStart_trimEnd (JS.trimStart s) (trimStart_idem s)).
  apply trimEnd_idem.
Qed.

(** The string handed to [JSON.parse] holds no fence marker, so cleaning
    it again changes nothing; and a response that holds no marker and no
    white space at its ends is handed over as it is. *)
Theorem cleanup_is_idempotent (textResponse : string) :
  contains_fence (strip_fences textResponse) = false
  /\ contains_fence (jsonString textResponse) = false
  /\ jsonString (jsonString textResponse) = jsonString textResponse
  /\ (contains_fence textResponse = false ->
      JS.trim textResponse = textResponse ->
      jsonString textResponse = textResponse).
Proof.
  assert (H1 : contains_fence (strip_fences textResponse) = false)
    by apply replace_from_fence_free.
  assert (H2 : contains_fence (jsonString textResponse) = false)
    by (apply trim_fence_free; exact H1).
  split; [exact H1|]. split; [exact H2|]. split.
  - unfold jsonString at 1. rewrite (strip_fences_none _ H2).
    unfold jsonString. apply trim_idem.
  - intros Hf Ht. unfold jsonString. rewrite (strip_fences_none _ Hf).
    exact Ht.
Qed.

Lemma cleanup_is_idempotent_witness : jsonString "[1, 2]" = "[1, 2]".
Proof.
  destruct (cleanup_is_idempotent "[1, 2]") as (_ & _ & _ & H).
  apply H; reflexivity.
Defined.

Lemma strip_fences_ticks_free (a x : string) :
  free_of (Ascii.eqb "`") a = true ->
  strip_fences (a ++ x) = (a ++ strip_fences x)%string.
Proof.
  unfold strip_fences, free_of. induction a as [|c r IH]; intros H;
    [reflexivity|].
  simpl in H. apply andb_true_iff in H. destruct H as [Hc Hr].
  apply negb_true_iff in Hc.
  change ((String c r ++ x)%string) with (String c (r ++ x)).
  rewrite (replace_from_head c _ Hc), (IH Hr). reflexivity.
Qed.

Lemma starts_with_open_ticks (b : string) :
  starts_with fence_open (String "`" (String "`" (String "`" b)))
  = starts_with "json" b.
Proof. reflexivity. Qed.

(** Markers are removed wherever they stand, not only at the two ends:
    with no backtick before it and no marker after it, an opening marker
    in the middle of the text disappears and the two parts are joined, and
    so does a bare marker that is not followed by [json]. *)
Theorem markers_are_removed_everywhere (a b : string) :
  free_of (Ascii.eqb "`") a = true ->
  contains_fence b = false ->
  strip_fences (a ++ fence_open ++ b) = (a ++ b)%string
  /\ (starts_with "json" b = false ->
      strip_fences (a ++ fence ++ b) = (a ++ b)%string).
Proof.
  intros Ha Hb. rewrite !(strip_fences_ticks_free a _ Ha). split.
  - rewrite strip_fences_open, (strip_fences_none b Hb). reflexivity.
  - intros Hj. f_equal.
    rewrite <- (strip_fences_none b Hb) at 2.
    unfold strip_fences, fence.
    change (("```" ++ b)%string) with (String "`" (String "`" (String "`" b))).
    cbn [replace_from].
    assert (F : fence_at (String "`" (String "`" (String "`" b))) = Some 3).
    { unfold fence_at. rewrite starts_with_open_ticks, Hj. reflexivity. }
    rewrite F. reflexivity.
Qed.

Lemma markers_are_removed_everywhere_witness :
  strip_fences "{summary: use ```json blocks}" = "{summary: use  blocks}".
Proof.
  assert (Ha : free_of (Ascii.eqb "`") "{summary: use " = true) by reflexivity.
  assert (Hb : contains_fence " blocks}" = false) by reflexivity.
  destruct (markers_are_removed_everywhere "{summary: use " " blocks}" Ha Hb)
    as [H _].
  exact H.
Defined.

(** ** Runs of the handler *)

Lemma count_events_app (p : event -> bool) (a b : list event) :
  count_events p (a ++ b) = count_events p a + count_events p b.
Proof. unfold count_events. rewrite filter_app, length_app. reflexivity. Qed.

Lemma realGeminiAnalysis_cases (rt : Runtime) (text jd : string) :
  (remote_failure rt text jd = Some NetworkFailure
   \/ remote_failure rt text jd = Some ParseFailure)
  /\ realGeminiAnalysis rt text jd
     = ([RequestSent (userPrompt text jd); ConsoleError;
         Alert api_error_message], Resolved VUndefined)
  \/ (remote_failure rt text jd <> Some NetworkFailure
      /\ remote_failure rt text jd <> Some ParseFailure)
     /\ exists v, realGeminiAnalysis rt text jd
                  = ([RequestSent (userPrompt text jd)], Resolved v).
Proof.
  unfold remote_failure, realGeminiAnalysis.
  destruct (generateContent rt _) as [t|]; [|left; auto].
  destruct (clean_and_parse rt t) as [v|]; [|left; auto].
  right. split; [|exists v; reflexivity].
  destruct (has_required_fields v); split; discriminate.
Qed.

Ltac count_now :=
  unfold count_events;
  cbn [snd filter is_request is_alert is_generator_call is_stats_event
       List.length].

(** One run of the handler makes a single attempt: it computes the
    statistics once and calls one generator once when the text is long
    enough and neither otherwise, sends one request when it also has a
    credential and none otherwise, and raises at most one alert; on a
    validated run the alert is raised exactly when the remote call failed
    on the network or on parsing. *)
Theorem single_attempt_per_run (rt : Runtime) (st : AppState) :
  count_events is_request (snd (handleAnalyze rt st))
  = (if (50 <=? String.length (resumeText st)) && truthy (API_KEY rt)
     then 1 else 0)
  /\ count_events is_generator_call (snd (handleAnalyze rt st))
     = (if 50 <=? String.length (resumeText st) then 1 else 0)
  /\ count_events is_stats_event (snd (handleAnalyze rt st))
     = (if 50 <=? String.length (resumeText st) then 1 else 0)
  /\ count_events is_alert (snd (handleAnalyze rt st)) <= 1
  /\ (50 <= String.length (resumeText st) ->
      (count_events is_alert (snd (handleAnalyze rt st)) = 1
       <-> truthy (API_KEY rt) = true
           /\ (remote_failure rt (resumeText st) (jobDesc st)
               = Some NetworkFailure
               \/ remote_failure rt (resumeText st) (jobDesc st)
                  = Some ParseFailure))).
Proof.
  destruct (Nat.leb_spec 50 (String.length (resumeText st))) as [Hl|Hs].
  - destruct (truthy (API_KEY rt)) eqn:Hkey.
    + rewrite (handleAnalyze_remote rt st Hl Hkey). cbn [snd andb].
      destruct (realGeminiAnalysis_cases rt (resumeText st) (jobDesc st))
        as [[Hf E]|[[Hn Hp] [v E]]]; rewrite E; cbn [fst]; count_now.
      * split; [reflexivity|]. split; [reflexivity|].
        split; [reflexivity|]. split; [lia|]. intros _.
        split; [intros _; split; [reflexivity|exact Hf]|reflexivity].
      * split; [reflexivity|]. split; [reflexivity|].
        split; [reflexivity|]. split; [lia|]. intros _.
        split; [discriminate|]. intros [_ [H|H]]; contradiction.
    + rewrite (handleAnalyze_mock rt st Hl Hkey). count_now. cbn [andb].
      split; [reflexivity|]. split; [reflexivity|].
      split; [reflexivity|]. split; [lia|]. intros _.
      split; [discriminate|]. intros [H _]. discriminate H.
  - rewrite (handleAnalyze_short rt st Hs). count_now.
    split; [reflexivity|]. split; [reflexivity|].
    split; [reflexivity|]. split; [lia|]. intros H. lia.
Qed.

(** The handler never touches the two input texts.  On a validated run
    it stores the statistics of the text and ends at the report step,
    and what it stores as statistics is the same whatever the
    credential, the remote model and the parser. *)
Theorem analysis_keeps_inputs (rt rt' : Runtime) (st : AppState) :
  resumeText (fst (handleAnalyze rt st)) = resumeText st
  /\ jobDesc (fst (handleAnalyze rt st)) = jobDesc st
  /\ stats (fst (handleAnalyze rt st)) = stats (fst (handleAnalyze rt' st))
  /\ (50 <= String.length (resumeText st) ->
      stats (fst (handleAnalyze rt st)) = calculateStats (resumeText st)
      /\ stats (fst (handleAnalyze rt st)) <> None
      /\ step (fst (handleAnalyze rt st)) = 3).
Proof.
  destruct (Nat.lt_ge_cases (String.length (resumeText st)) 50) as [Hs|Hl].
  - rewrite !(handleAnalyze_short _ st Hs).
    split; [reflexivity|]. split; [reflexivity|]. split; [reflexivity|].
    intros H. lia.
  - destruct (handleAnalyze_validated rt st Hl) as [v Hv].
    destruct (handleAnalyze_validated rt' st Hl) as [v' Hv'].
    rewrite Hv, Hv'.
    split; [reflexivity|]. split; [reflexivity|]. split; [reflexivity|].
    intros _. split; [reflexivity|]. split; [|reflexivity].
    cbn [stats setStep setAiResult setStats].
    rewrite calculateStats_nonempty; [discriminate|].
    destruct (resumeText st); [simpl in Hl; lia|discriminate].
Qed.

Lemma analysis_keeps_inputs_witness :
  stats (fst (handleAnalyze offline sample_state))
  = calculateStats sample_resume.
Proof.
  destruct (analysis_keeps_inputs offline offline sample_state)
    as (_ & _ & _ & H).
  apply H. vm_compute; lia.
Defined.

(** The note about demo mode on the input screen is shown exactly when a
    validated run will use the mock generator, and is absent exactly when
    it will call the remote client. *)
Theorem demo_note_tells_the_generator (rt : Runtime) (st : AppState) :
  50 <= String.length (resumeText st) ->
  (demo_note rt = true <-> calls_mock (snd (handleAnalyze rt st)) = true)
  /\ (demo_note rt = false
      <-> calls_remote (snd (handleAnalyze rt st)) = true).
Proof.
  intros Hl. unfold demo_note. destruct (truthy (API_KEY rt)) eqn:Hkey.
  - rewrite (handleAnalyze_remote rt st Hl Hkey).
    cbn [snd calls_remote calls_mock existsb is_remote_event is_mock_event
         orb negb].
    fold (calls_mock (fst (realGeminiAnalysis rt (resumeText st) (jobDesc st)))).
    rewrite realGeminiAnalysis_events.
    repeat split; intros; try reflexivity; discriminate.
  - rewrite (handleAnalyze_mock rt st Hl Hkey).
    repeat split; intros; try reflexivity; discriminate.
Qed.

Lemma demo_note_tells_the_generator_witness :
  demo_note offline = true
  /\ calls_mock (snd (handleAnalyze offline sample_state)) = true.
Proof.
  assert (Hl : 50 <= String.length (resumeText sample_state))
    by (vm_compute; lia).
  destruct (demo_note_tells_the_generator offline sample_state Hl) as [[H _] _].
  split; [reflexivity|apply H; reflexivity].
Defined.

(** ** Sessions *)

Lemma screen_of_cases (ui : Ui) :
  (screen_of ui = InputScreen /\ step (session ui) = 1)
  \/ (screen_of ui = AnalyzingScreen /\ step (session ui) = 2)
  \/ (screen_of ui = ReportScreen /\ step (session ui) <> 1
      /\ step (session ui) <> 2).
Proof.
  unfold screen_of.
  destruct (Nat.eqb_spec (step (session ui)) 1) as [E1|E1]; [auto|].
  destruct (Nat.eqb_spec (step (session ui)) 2) as [E2|E2]; auto.
Qed.

Lemma run_after_reset (rt : Runtime) (ui : Ui) (text : string) :
  run rt [ChangeResume text; ClickAnalyze] (reset ui)
  = on_app (fun _ => fst (handleAnalyze rt (setResumeText text initialState)))
           ui.
Proof. reflexivity. Qed.

(** New Scan brings back the first state of the analysis and keeps the
    two flags: Pro status survives it, and so does an open upgrade
    dialog.  Right after it Analyze is turned away, the text being empty;
    and when the dialog was open, it is open again on the next report. *)
Theorem new_scan_clears_the_analysis_only
        (rt : Runtime) (ui : Ui) (text : string) :
  session (reset ui) = initialState
  /\ isPro (reset ui) = isPro ui
  /\ showUpgradeModal (reset ui) = showUpgradeModal ui
  /\ screen_of (reset ui) = InputScreen
  /\ dispatch rt ClickAnalyze (reset ui)
     = (reset ui, [Alert short_text_message])
  /\ (50 <= String.length text ->
      screen_of (run rt [ChangeResume text; ClickAnalyze] (reset ui))
      = ReportScreen
      /\ showUpgradeModal
           (run rt [ChangeResume text; ClickAnalyze] (reset ui))
         = showUpgradeModal ui
      /\ isPro (run rt [ChangeResume text; ClickAnalyze] (reset ui))
         = isPro ui).
Proof.
  split; [reflexivity|]. split; [reflexivity|]. split; [reflexivity|].
  split; [reflexivity|]. split; [reflexivity|].
  intros Hl. rewrite run_after_reset.
  destruct (handleAnalyze_validated rt (setResumeText text initialState) Hl)
    as [v Hv].
  unfold screen_of, on_app. cbn [session isPro showUpgradeModal].
  rewrite Hv. split; [reflexivity|]. split; reflexivity.
Qed.

Lemma new_scan_clears_the_analysis_only_witness :
  showUpgradeModal
    (run offline [ChangeResume sample_resume; ClickAnalyze]
       (reset {| session := sample_state; isPro := false;
                 showUpgradeModal := true |}))
  = true.
Proof.
  destruct (new_scan_clears_the_analysis_only offline
              {| session := sample_state; isPro := false;
                 showUpgradeModal := true |} sample_resume)
    as (_ & _ & _ & _ & _ & H).
  destruct H as (_ & H & _); [vm_compute; lia|exact H].
Defined.

(** Between two handlers a session shows the input screen or the report,
    never the analysing screen.  On the input screen no statistics and no
    analysis are stored; on the report the text has at least 50
    characters and the stored statistics are those of that very text. *)
Theorem report_shows_the_current_text (rt : Runtime) (ui : Ui) :
  reachable rt ui ->
  (step (session ui) = 1 \/ step (session ui) = 3)
  /\ (step (session ui) = 1 ->
      stats (session ui) = None /\ aiResult (session ui) = VNull)
  /\ (step (session ui) = 3 ->
      50 <= String.length (resumeText (session ui))
      /\ stats (session ui) = calculateStats (resumeText (session ui))
      /\ stats (session ui) <> None).
Proof.
  induction 1 as [|ui a Hr IH Ha].
  - split; [left; reflexivity|]. split; [split; reflexivity|].
    intros H. discriminate H.
  - destruct IH as (Hstep & H1 & H3). unfold offered in Ha.
    destruct (screen_of_cases ui) as [[Hs E]|[[Hs E]|[Hs [E1 E2]]]];
      rewrite Hs in Ha.
    + destruct (H1 E) as [Hst Hai].
      destruct a; try discriminate Ha; cbn [dispatch fst on_app session].
      * cbn [setResumeText step stats aiResult]. rewrite E, Hst, Hai.
        split; [left; reflexivity|]. split; [split; reflexivity|].
        intros H. discriminate H.
      * cbn [setJobDesc step stats aiResult]. rewrite E, Hst, Hai.
        split; [left; reflexivity|]. split; [split; reflexivity|].
        intros H. discriminate H.
      * destruct (Nat.lt_ge_cases
                    (String.length (resumeText (session ui))) 50) as [Hlt|Hge].
        -- rewrite (handleAnalyze_short rt _ Hlt). cbn [fst].
           split; [left; exact E|]. split; [intros _; split; assumption|].
           intros H. rewrite E in H. discriminate H.
        -- destruct (handleAnalyze_validated rt _ Hge) as [v Hv].
           rewrite Hv.
           cbn [step stats aiResult resumeText setStep setAiResult setStats].
           split; [right; reflexivity|].
           split; [intros H; discriminate H|]. intros _.
           split; [exact Hge|]. split; [reflexivity|].
           rewrite calculateStats_nonempty; [discriminate|].
           destruct (resumeText (session ui)); [simpl in Hge; lia|discriminate].
    + destruct a; discriminate Ha.
    + assert (E3 : step (session ui) = 3) by (destruct Hstep; congruence).
      destruct a; try discriminate Ha;
        cbn [dispatch fst reset on_app setShowUpgradeModal setIsPro session
             step stats aiResult resumeText setStep setAiResult setStats
             setJobDesc setResumeText];
        first [ split; [left; reflexivity|];
                split; [intros _; split; reflexivity|];
                intros H; discriminate H
              | split; [right; exact E3|];
                split; [intros H; congruence|exact H3] ].
Qed.

Lemma report_shows_the_current_text_witness :
  stats (session (run offline [ChangeResume sample_resume; ClickAnalyze]
                    initialUi))
  = calculateStats sample_resume.
Proof.
  assert (R : reachable offline
                (run offline [ChangeResume sample_resume; ClickAnalyze]
                   initialUi)).
  { cbn [run offered screen_of initialUi session initialState step Nat.eqb].
    cbn [dispatch fst on_app session setResumeText step Nat.eqb].
    apply (reach_step offline _ ClickAnalyze); [|reflexivity].
    apply (reach_step offline initialUi (ChangeResume sample_resume));
      [apply reach_start|reflexivity]. }
  destruct (report_shows_the_current_text offline _ R) as (_ & _ & H).
  destruct H as (_ & H & _); [vm_compute; reflexivity|].
  rewrite H. vm_compute. reflexivity.
Defined.

Lemma run_keeps_pro (rt : Runtime) (l : list action) :
  forall ui, isPro ui = true -> isPro (run rt l ui) = true.
Proof.
  induction l as [|a r IH]; intros ui H; [exact H|].
  cbn [run]. apply IH. destruct (offered ui a); [|exact H].
  destruct a; exact H || reflexivity.
Qed.

(** Pro status, once set, is never taken back: no handler clears it, New
    Scan included.  Only the unlock button of the upgrade dialog sets it,
    and that button exists only while the dialog is open on the report. *)
Theorem pro_status_is_never_lost (rt : Runtime) (a : action) (ui : Ui) :
  (isPro ui = true -> isPro (fst (dispatch rt a ui)) = true)
  /\ (isPro ui = false -> isPro (fst (dispatch rt a ui)) = true ->
      a = ClickUnlockPro)
  /\ (offered ui ClickUnlockPro = true ->
      showUpgradeModal ui = true /\ screen_of ui = ReportScreen)
  /\ (forall l, isPro ui = true -> isPro (run rt l ui) = true).
Proof.
  split; [intros H; destruct a; exact H || reflexivity|].
  split.
  { intros H1 H2. destruct a; try reflexivity;
      cbn [dispatch fst on_app reset setShowUpgradeModal isPro] in H2;
      congruence. }
  split.
  { unfold offered. destruct (screen_of ui); try discriminate. auto. }
  intros l H. apply run_keeps_pro. exact H.
Qed.

(** ** The lists of the report *)

Lemma rewrite_of_ok (pro : bool) (item : value) (i : nat) :
  row_ok item = true ->
  rewrite_of pro item i
  = Some {| original := read_opt item "original";
            improved := read_opt item "improved";
            locked := negb pro && (0 <? i) |}.
Proof.
  unfold row_ok, rewrite_of, read_opt. intros H.
  apply andb_true_iff in H. destruct H as [H Hm].
  apply andb_true_iff in H. destruct H as [Ha Ho].
  destruct item; try discriminate Ha; cbn [read] in *;
    try rewrite Ho; try rewrite Hm; reflexivity.
Qed.

Lemma rewrite_of_not_ok (pro : bool) (item : value) (i : nat) :
  row_ok item = false -> rewrite_of pro item i = None.
Proof.
  unfold row_ok, rewrite_of, read_opt. intros H.
  destruct item; cbn [read absent negb andb] in *;
    try reflexivity; try discriminate H; rewrite H; reflexivity.
Qed.

Lemma map_index_rows (pro : bool) (items : list value) :
  Forall (fun it => row_ok it = true) items ->
  forall k, exists rows,
    map_index (rewrite_of pro) items k = Some rows
    /\ List.length rows = List.length items
    /\ (forall i row, nth_error rows i = Some row ->
                      locked row = negb pro && (0 <? k + i))
    /\ (forall i row, nth_error rows i = Some row ->
          exists item,
            nth_error items i = Some item
            /\ original row = read_opt item "original"
            /\ improved row = read_opt item "improved")
    /\ List.length (filter (fun r => negb (locked r)) rows)
       = if pro then List.length items
         else match k with
              | O => Nat.min 1 (List.length items)
              | S _ => 0
              end.
Proof.
  induction 1 as [|it l Hit Hl IH]; intros k.
  - exists []. split; [reflexivity|]. split; [reflexivity|]. split.
    + intros [|i] row H; discriminate H.
    + split; [intros [|i] row H; discriminate H|].
      destruct pro; destruct k; reflexivity.
  - pose proof (rewrite_of_ok pro it k Hit) as E.
    destruct (IH (S k)) as (rows & E' & Hlen & Hlock & Htext & Hcount).
    exists ({| original := read_opt it "original";
               improved := read_opt it "improved";
               locked := negb pro && (0 <? k) |} :: rows).
    cbn [map_index]. rewrite E, E'.
    split; [reflexivity|]. split; [simpl; rewrite Hlen; reflexivity|]. split.
    + intros [|i] row H.
      * injection H as <-. cbn [locked]. rewrite Nat.add_0_r. reflexivity.
      * cbn [nth_error] in H. rewrite (Hlock i row H).
        replace (S k + i) with (k + S i) by lia. reflexivity.
    + split.
      * intros [|i] row H.
        -- injection H as <-. exists it. repeat split.
        -- cbn [nth_error] in H. apply (Htext i row H).
      * cbn [filter locked]. destruct pro; cbn [negb andb].
        -- cbn [List.length]. rewrite Hcount. reflexivity.
        -- destruct k as [|k]; cbn [Nat.ltb Nat.leb negb List.length];
             rewrite Hcount; [|reflexivity].
           destruct (List.length l); reflexivity.
Qed.

Lemma map_index_bad_row (pro : bool) (items : list value) :
  Exists (fun it => row_ok it = false) items ->
  forall k, map_index (rewrite_of pro) items k = None.
Proof.
  induction 1 as [it l H|it l H IH]; intros k; cbn [map_index].
  - rewrite (rewrite_of_not_ok pro it k H). reflexivity.
  - rewrite IH. destruct (rewrite_of pro it k); reflexivity.
Qed.

Lemma map_index_chips (items : list value) :
  forall k,
    map_index keyword_chip items k
    = if forallb valid_child items then Some items else None.
Proof.
  induction items as [|x l IH]; intros k; [reflexivity|].
  cbn [map_index forallb]. unfold keyword_chip at 1.
  destruct (valid_child x); [|reflexivity].
  rewrite IH. cbn [andb]. destruct (forallb valid_child l); reflexivity.
Qed.

Lemma render_report_rows (ui : Ui) :
  rewrite_rows ui = None -> render_report ui = None.
Proof.
  intros H. unfold render_report. rewrite H.
  destruct (_ && _); reflexivity.
Qed.

Lemma render_report_chips (ui : Ui) :
  keyword_chips ui = None -> render_report ui = None.
Proof.
  intros H. unfold render_report. rewrite H.
  destruct (_ && _); [|reflexivity]. destruct (rewrite_rows ui); reflexivity.
Qed.

(** The analysis part of the report.  While no analysis is held, after a
    failed remote call for one, the score and the summary are empty, both
    lists are empty and nothing throws.  An array of bullet points that
    are not [null] or [undefined] and whose two texts React can show gives
    one row each, in order and with these texts, the improved text of a
    row locked exactly when the user is not Pro and the row is not the
    first, so a user who is not Pro reads one rewrite and a Pro user all
    of them.  The render throws when a bullet point is [null] or
    [undefined] or one of its texts is an object, when the bullet points
    or the keywords are present but not an array, when a keyword is an
    object, and when the score or the summary is an object; otherwise it
    succeeds, and the keywords of an array are shown as they are. *)
Theorem report_lists (ui : Ui) (items : list value) :
  (absent (aiResult (session ui)) = true ->
   render_report ui
   = Some {| shown_score := VUndefined; shown_summary := VUndefined;
             shown_rewrites := []; shown_keywords := [] |})
  /\ (read_opt (aiResult (session ui)) "bulletPoints" = VArray items ->
      Forall (fun it => row_ok it = true) items ->
      exists rows,
        rewrite_rows ui = Some rows
        /\ List.length rows = List.length items
        /\ (forall i row, nth_error rows i = Some row ->
                          locked row = negb (isPro ui) && (0 <? i))
        /\ (forall i row, nth_error rows i = Some row ->
              exists item,
                nth_error items i = Some item
                /\ original row = read_opt item "original"
                /\ improved row = read_opt item "improved")
        /\ List.length (filter (fun r => negb (locked r)) rows)
           = if isPro ui then List.length items
             else Nat.min 1 (List.length items))
  /\ (read_opt (aiResult (session ui)) "bulletPoints" = VArray items ->
      Exists (fun it => row_ok it = false) items ->
      rewrite_rows ui = None /\ render_report ui = None)
  /\ (absent (read_opt (aiResult (session ui)) "bulletPoints") = false ->
      is_array (read_opt (aiResult (session ui)) "bulletPoints") = false ->
      rewrite_rows ui = None /\ render_report ui = None)
  /\ (read_opt (aiResult (session ui)) "missingKeywords" = VArray items ->
      forallb valid_child items = true ->
      keyword_chips ui = Some items)
  /\ (read_opt (aiResult (session ui)) "missingKeywords" = VArray items ->
      forallb valid_child items = false ->
      keyword_chips ui = None /\ render_report ui = None)
  /\ (absent (read_opt (aiResult (session ui)) "missingKeywords") = false ->
      is_array (read_opt (aiResult (session ui)) "missingKeywords") = false ->
      keyword_chips ui = None /\ render_report ui = None)
  /\ (valid_child (read_opt (aiResult (session ui)) "score") = false
      \/ valid_child (read_opt (aiResult (session ui)) "summary") = false ->
      render_report ui = None)
  /\ (valid_child (read_opt (aiResult (session ui)) "score") = true ->
      valid_child (read_opt (aiResult (session ui)) "summary") = true ->
      forall rows chips,
        rewrite_rows ui = Some rows -> keyword_chips ui = Some chips ->
        render_report ui
        = Some {| shown_score := read_opt (aiResult (session ui)) "score";
                  shown_summary := read_opt (aiResult (session ui)) "summary";
                  shown_rewrites := rows; shown_keywords := chips |}).
Proof.
  split.
  { intros H. unfold render_report, rewrite_rows, keyword_chips.
    destruct (aiResult (session ui)); try discriminate H; reflexivity. }
  split.
  { intros E Hitems. unfold rewrite_rows. rewrite E. cbn [map_opt].
    destruct (map_index_rows (isPro ui) items Hitems 0)
      as (rows & H1 & H2 & H3 & H4 & H5).
    exists rows. repeat split; assumption. }
  split.
  { intros E Hitems.
    assert (H : rewrite_rows ui = None).
    { unfold rewrite_rows. rewrite E. cbn [map_opt].
      apply map_index_bad_row. exact Hitems. }
    split; [exact H|apply render_report_rows; exact H]. }
  split.
  { intros H1 H2.
    assert (H : rewrite_rows ui = None).
    { unfold rewrite_rows.
      destruct (read_opt (aiResult (session ui)) "bulletPoints");
        try discriminate H1; try discriminate H2; reflexivity. }
    split; [exact H|apply render_report_rows; exact H]. }
  split.
  { intros E H. unfold keyword_chips. rewrite E. cbn [map_opt].
    rewrite map_index_chips, H. reflexivity. }
  split.
  { intros E H.
    assert (H' : keyword_chips ui = None).
    { unfold keyword_chips. rewrite E. cbn [map_opt].
      rewrite map_index_chips, H. reflexivity. }
    split; [exact H'|apply render_report_chips; exact H']. }
  split.
  { intros H1 H2.
    assert (H : keyword_chips ui = None).
    { unfold keyword_chips.
      destruct (read_opt (aiResult (session ui)) "missingKeywords");
        try discriminate H1; try discriminate H2; reflexivity. }
    split; [exact H|apply render_report_chips; exact H]. }
  split.
  { intros [H|H]; unfold render_report; rewrite H;
      [reflexivity|rewrite andb_false_r; reflexivity]. }
  intros H1 H2 rows chips Hr Hc. unfold render_report.
  rewrite H1, H2, Hr, Hc. reflexivity.
Qed.

Lemma report_lists_witness :
  exists rows,
    rewrite_rows {| session := setAiResult (mock_value "") sample_state;
                    isPro := false; showUpgradeModal := false |}
    = Some rows
    /\ List.length rows = 2
    /\ List.length (filter (fun r => negb (locked r)) rows) = 1.
Proof.
  destruct (report_lists
              {| session := setAiResult (mock_value "") sample_state;
                 isPro := false; showUpgradeModal := false |}
              mock_bulletPoints) as (_ & H & _).
  destruct H as (rows & H1 & H2 & _ & _ & H4);
    [reflexivity|repeat constructor|].
  exists rows. repeat split; assumption.
Defined.

(** ** Strong and weak verbs together *)

Lemma strong_not_weak (w : string) : strongb w = true -> weakb w = false.
Proof.
  unfold strongb, weakb. intros H. apply includes_In in H. simpl in H.
  repeat (destruct H as [H|H]; [rewrite <- H; reflexivity|]).
  contradiction.
Qed.

Lemma filter_disjoint_length {A : Type} (f g : A -> bool) (l : list A) :
  (forall x, f x = true -> g x = false) ->
  List.length (filter f l) + List.length (filter g l) <= List.length l.
Proof.
  intros H. induction l as [|x l IH]; [simpl; lia|]. cbn [filter].
  destruct (f x) eqn:E.
  - rewrite (H x E). simpl. lia.
  - destruct (g x); simpl; lia.
Qed.

(** The two verb lists share no verb, so no word is counted as both
    strong and weak: the two counts add up to the number of words at
    most, and to a third of the length of the text at most. *)
Theorem no_word_counts_twice (text : string) :
  (forall w, strongb w = true -> weakb w = false)
  /\ fst (verb_counts (words_of text)) + snd (verb_counts (words_of text))
     <= List.length (words_of text)
  /\ 3 * (fst (verb_counts (words_of text))
          + snd (verb_counts (words_of text)))
     <= String.length text.
Proof.
  split; [exact strong_not_weak|]. split; [|apply verb_counts_bound].
  unfold verb_counts. rewrite fold_count_verb. cbn [fst snd].
  apply filter_disjoint_length. exact strong_not_weak.
Qed.
